(** * Codebeamer CBQL gateway: validator, request gateway and paginated query

    A shallow embedding of [utils/cbql_validator.py],
    [utils/codebeamer_client.py] and the tools [list_projects],
    [query_items] and [get_project_details] of [main.py], with the
    properties of the specification stated over it.

    Text is modelled as [string], a sequence of 7-bit ASCII characters:
    [str.upper], [str.strip], [int] and the [re] module are embedded as they
    act on code points below 128.  The values from 128 on of the type [ascii]
    stand for no Python character; the functions leave them alone. *)

From Stdlib Require Import ZArith List String Ascii Bool Lia DecimalString.
From Stdlib Require DecimalPos.
Import ListNotations.

#[local] Set Warnings "-register-all".

Open Scope string_scope.
Open Scope bool_scope.

(** ** Python built-ins used by the sources *)

Module Py.

Definition code (c : ascii) : N := N_of_ascii c.

Definition between (lo hi : N) (c : ascii) : bool :=
  (N.leb lo (code c)) && (N.leb (code c) hi).

(** [str.isspace] on one ASCII character: TAB, LF, VT, FF, CR, the four
    separators FS, GS, RS, US and the blank. *)
Definition isspace (c : ascii) : bool :=
  between 9 13 c || between 28 31 c || N.eqb (code c) 32.

Definition islower (c : ascii) : bool := between 97 122 c.
Definition isupper (c : ascii) : bool := between 65 90 c.
Definition isdigit (c : ascii) : bool := between 48 57 c.

(** [\w] of the [re] module on ASCII: letters, digits and the underscore. *)
Definition isword (c : ascii) : bool :=
  islower c || isupper c || isdigit c || N.eqb (code c) 95.

Definition upper_char (c : ascii) : ascii :=
  if islower c then ascii_of_N (code c - 32) else c.

Definition lower_char (c : ascii) : ascii :=
  if isupper c then ascii_of_N (code c + 32) else c.

(** [str.upper] *)
Fixpoint upper (s : string) : string :=
  match s with
  | EmptyString => EmptyString
  | String c r => String (upper_char c) (upper r)
  end.

(** [str.lstrip], [str.rstrip] and [str.strip] without argument. *)
Fixpoint lstrip (s : string) : string :=
  match s with
  | EmptyString => EmptyString
  | String c r => if isspace c then lstrip r else s
  end.

Fixpoint rstrip (s : string) : string :=
  match s with
  | EmptyString => EmptyString
  | String c r =>
      match rstrip r with
      | EmptyString => if isspace c then EmptyString else String c EmptyString
      | r' => String c r'
      end
  end.

Definition strip (s : string) : string := rstrip (lstrip s).

(** [s.startswith(p)] *)
Fixpoint startswith (p s : string) : bool :=
  match p, s with
  | EmptyString, _ => true
  | String _ _, EmptyString => false
  | String a p', String b s' => Ascii.eqb a b && startswith p' s'
  end.

(** [sub in s], the substring test of [str.__contains__]. *)
Fixpoint contains (sub s : string) : bool :=
  startswith sub s ||
  match s with
  | EmptyString => false
  | String _ r => contains sub r
  end.

(** Truth value of a [str]: the empty string is false. *)
Definition truthy (s : string) : bool :=
  match s with EmptyString => false | _ => true end.

(** [str(n)] for an [int], as an f-string renders it. *)
Definition str_of_int (n : Z) : string := NilZero.string_of_int (Z.to_int n).

Definition digit_value (c : ascii) : Z := Z.of_N (code c - 48).

(** The digits of an [int] literal, single underscores between them. *)
Fixpoint int_digits (acc : Z) (after_digit : bool) (s : string) : option Z :=
  match s with
  | EmptyString => if after_digit then Some acc else None
  | String c r =>
      if isdigit c then int_digits (10 * acc + digit_value c) true r
      else if N.eqb (code c) 95 && after_digit then
        match r with
        | String d _ => if isdigit d then int_digits acc false r else None
        | EmptyString => None
        end
      else None
  end.

(** The whitespace [int] drops around ASCII text, C's [isspace]: TAB, LF,
    VT, FF, CR and the blank, and not the separators FS, GS, RS, US that
    [str.strip] drops as well. *)
Definition isspace_c (c : ascii) : bool :=
  between 9 13 c || N.eqb (code c) 32.

Fixpoint lstrip_c (s : string) : string :=
  match s with
  | EmptyString => EmptyString
  | String c r => if isspace_c c then lstrip_c r else s
  end.

Fixpoint rstrip_c (s : string) : string :=
  match s with
  | EmptyString => EmptyString
  | String c r =>
      match rstrip_c r with
      | EmptyString => if isspace_c c then EmptyString else String c EmptyString
      | r' => String c r'
      end
  end.

(** The number of digits of a text, leading zeros counted, signs and
    underscores not. *)
Fixpoint count_digits (s : string) : nat :=
  match s with
  | EmptyString => 0
  | String c r => (if isdigit c then 1 else 0) + count_digits r
  end.

(** [sys.get_int_max_str_digits()], as the interpreter starts with it. *)
Definition int_max_str_digits : nat := 4300.

(** [int(s)] for a [str] in base 10: surrounding whitespace is dropped, one
    sign may lead, single underscores may separate digits, and a text of
    more than [int_max_str_digits] digits is refused.  [None] stands for
    [ValueError]. *)
Definition int_of_str (s : string) : option Z :=
  let t := rstrip_c (lstrip_c s) in
  if Nat.ltb int_max_str_digits (count_digits t) then None
  else
    match t with
    | String "+" r => int_digits 0 false r
    | String "-" r => option_map Z.opp (int_digits 0 false r)
    | _ => int_digits 0 false t
    end.

(** Modelled from the spec: [utils/errors.py], which declares the exception
    [RateLimited], is not among the sources.  The sources build it as
    [RateLimited(retry)] and read [e.retry_after]; the specification calls it
    the rate limit signal carrying the retry-after seconds. *)
Record RateLimited : Type := mkRateLimited { retry_after : Z }.

(** The exceptions the embedded code raises or lets through. *)
Inductive exn : Type :=
| RateLimitedError (e : RateLimited)
| ValueError (msg : string)
| InvalidLiteral (text : string)   (* ValueError of [int] on [text] *)
| HTTPStatusError (status : Z)
| JSONDecodeError
| AttributeError
| TypeError
| KeyError (key : string)
| RuntimeError (msg : string).

(** What a call does: it returns a value or raises. *)
Inductive outcome (A : Type) : Type :=
| Return (v : A)
| Raise (e : exn).

Arguments Return {A} v.
Arguments Raise {A} e.

Definition bind {A B : Type} (m : outcome A) (k : A -> outcome B) : outcome B :=
  match m with
  | Return v => k v
  | Raise e => Raise e
  end.

End Py.

Notation "x <- m ;; k" := (Py.bind m (fun x => k))
  (at level 61, m at next level, right associativity).

(** ** The fragment of the [re] module behind [SCOPE_PATTERN] *)

Module Re.

Inductive regex : Type :=
| Void
| Eps
| Chr (c : ascii)
| Space
| Cat (r1 r2 : regex)
| Alt (r1 r2 : regex)
| Star (r : regex).

(** A pattern of the shape [\b(body)]. *)
Record pattern : Type := BoundaryThen { body : regex; ignorecase : bool }.

Fixpoint literal (s : string) : regex :=
  match s with
  | EmptyString => Eps
  | String c r => Cat (Chr c) (literal r)
  end.

Definition plus (r : regex) : regex := Cat r (Star r).

Definition chr_matches (ic : bool) (p a : ascii) : bool :=
  if ic then Ascii.eqb (Py.lower_char p) (Py.lower_char a) else Ascii.eqb p a.

Fixpoint nullable (r : regex) : bool :=
  match r with
  | Void => false
  | Eps => true
  | Chr _ => false
  | Space => false
  | Cat r1 r2 => nullable r1 && nullable r2
  | Alt r1 r2 => nullable r1 || nullable r2
  | Star _ => true
  end.

(** Brzozowski derivative: what is left of [r] after reading [a]. *)
Fixpoint deriv (ic : bool) (a : ascii) (r : regex) : regex :=
  match r with
  | Void => Void
  | Eps => Void
  | Chr p => if chr_matches ic p a then Eps else Void
  | Space => if Py.isspace a then Eps else Void
  | Cat r1 r2 =>
      if nullable r1
      then Alt (Cat (deriv ic a r1) r2) (deriv ic a r2)
      else Cat (deriv ic a r1) r2
  | Alt r1 r2 => Alt (deriv ic a r1) (deriv ic a r2)
  | Star r1 => Cat (deriv ic a r1) (Star r1)
  end.

(** Some prefix of [s] matches [r]. *)
Fixpoint match_prefix (ic : bool) (r : regex) (s : string) : bool :=
  nullable r ||
  match s with
  | EmptyString => false
  | String a s' => match_prefix ic (deriv ic a r) s'
  end.

Definition is_word (c : option ascii) : bool :=
  match c with Some a => Py.isword a | None => false end.

Definition head (s : string) : option ascii :=
  match s with EmptyString => None | String a _ => Some a end.

(** [\b] between the character [prev] and the text [s] that follows. *)
Definition word_boundary (prev : option ascii) (s : string) : bool :=
  xorb (is_word prev) (is_word (head s)).

(** [pattern.search] from a position whose preceding character is [prev]. *)
Fixpoint search_from (p : pattern) (prev : option ascii) (s : string) : bool :=
  (word_boundary prev s && match_prefix (ignorecase p) (body p) s) ||
  match s with
  | EmptyString => false
  | String a s' => search_from p (Some a) s'
  end.

(** Truth value of [pattern.search(s)]. *)
Definition search (p : pattern) (s : string) : bool := search_from p None s.

End Re.

(** ** [utils/cbql_validator.py] *)

Module CbqlValidator.

Definition FORBIDDEN_KEYWORDS : list string :=
  ["SELECT"; "UPDATE"; "DELETE"; "INSERT"; "JOIN"].

Definition SCOPE_PATTERN : Re.pattern :=
  let ws := Re.Star Re.Space in
  Re.BoundaryThen
    (Re.Alt (Re.Cat (Re.literal "tracker") (Re.Cat ws (Re.Chr "=")))
       (Re.Alt (Re.Cat (Re.literal "tracker")
                  (Re.Cat (Re.plus Re.Space) (Re.literal "IN")))
          (Re.Cat (Re.literal "project") (Re.Cat ws (Re.Chr "=")))))
    true.

Definition forbidden_message (kw : string) : string :=
  "Invalid CBQL: '" ++ kw ++ "' is not supported. CBQL is not SQL.".

(** The [for kw in FORBIDDEN_KEYWORDS] loop: the first keyword found in
    [upper] raises. *)
Fixpoint first_forbidden (kws : list string) (upper : string) : option string :=
  match kws with
  | [] => None
  | kw :: rest =>
      if Py.contains kw upper then Some kw else first_forbidden rest upper
  end.

Definition validate_cbql (cbql : string) : Py.outcome string :=
  if negb (Py.truthy cbql) || negb (Py.truthy (Py.strip cbql)) then
    Py.Raise (Py.ValueError "CBQL cannot be empty")
  else
    let upper := Py.upper cbql in
    match first_forbidden FORBIDDEN_KEYWORDS upper with
    | Some kw => Py.Raise (Py.ValueError (forbidden_message kw))
    | None =>
        if negb (Re.search SCOPE_PATTERN cbql) then
          Py.Raise
            (Py.ValueError "Invalid CBQL: tracker or project scope is required.")
        else if Py.contains ";" cbql then
          Py.Raise (Py.ValueError "Multiple CBQL statements are not allowed.")
        else Py.Return (Py.strip cbql)
    end.

End CbqlValidator.

(** ** Decoded JSON values, as [resp.json()] returns them *)

Module Json.

Inductive value : Type :=
| Null
| Bool (b : bool)
| Int (n : Z)
| Float (repr : string)
| Str (s : string)
| Array (elems : list value)
| Object (fields : list (string * value)).

Fixpoint lookup (key : string) (fields : list (string * value)) : option value :=
  match fields with
  | [] => None
  | (k, v) :: rest => if String.eqb k key then Some v else lookup key rest
  end.

(** [d.get(key, default)]; anything but a dict has no [get]. *)
Definition get (d : value) (key : string) (default : value) : Py.outcome value :=
  match d with
  | Object fields =>
      Py.Return (match lookup key fields with Some v => v | None => default end)
  | _ => Py.Raise Py.AttributeError
  end.

(** [d[key]] with a string key. *)
Definition getitem (d : value) (key : string) : Py.outcome value :=
  match d with
  | Object fields =>
      match lookup key fields with
      | Some v => Py.Return v
      | None => Py.Raise (Py.KeyError key)
      end
  | _ => Py.Raise Py.TypeError
  end.

Fixpoint chars (s : string) : list value :=
  match s with
  | EmptyString => []
  | String c r => Str (String c EmptyString) :: chars r
  end.

(** The elements [for x in v] visits: those of a list, the keys of a dict,
    the characters of a string; nothing else is iterable. *)
Definition iter (v : value) : Py.outcome (list value) :=
  match v with
  | Array elems => Py.Return elems
  | Object fields => Py.Return (map (fun kv => Str (fst kv)) fields)
  | Str s => Py.Return (chars s)
  | _ => Py.Raise Py.TypeError
  end.

(** [len(v)] *)
Definition len (v : value) : Py.outcome nat :=
  match v with
  | Array elems => Py.Return (List.length elems)
  | Object fields => Py.Return (List.length fields)
  | Str s => Py.Return (String.length s)
  | _ => Py.Raise Py.TypeError
  end.

Definition of_optional_int (n : option Z) : value :=
  match n with Some z => Int z | None => Null end.

End Json.

(** ** [utils/codebeamer_client.py] *)

Module CodebeamerClient.

(** One call of the gateway: the token, the method, the path and the [json]
    keyword argument. *)
Record call : Type := mkCall {
  token : string;
  method : string;
  path : string;
  json : option Json.value
}.

(** The response of the HTTP exchange, [None] for a body that does not
    decode. *)
Record response : Type := mkResponse {
  status_code : Z;
  headers : list (string * string);
  body : option Json.value
}.

Fixpoint join (sep : string) (l : list string) : string :=
  match l with
  | [] => EmptyString
  | [x] => x
  | x :: rest => x ++ sep ++ join sep rest
  end.

Fixpoint lower (s : string) : string :=
  match s with
  | EmptyString => EmptyString
  | String c r => String (Py.lower_char c) (lower r)
  end.

(** [headers.get(key)]: names compare without case, repeated headers are
    joined with a comma. *)
Definition headers_get (h : list (string * string)) (key : string) : option string :=
  match filter (fun kv => String.eqb (lower (fst kv)) (lower key)) h with
  | [] => None
  | found => Some (join ", " (map snd found))
  end.

(** [int(resp.headers.get("Retry-After", 30))] *)
Definition retry_after_of (h : list (string * string)) : Py.outcome Z :=
  match headers_get h "Retry-After" with
  | None => Py.Return 30%Z
  | Some text =>
      match Py.int_of_str text with
      | Some n => Py.Return n
      | None => Py.Raise (Py.InvalidLiteral text)
      end
  end.

Definition is_success (status : Z) : bool :=
  (200 <=? status)%Z && (status <=? 299)%Z.

(** [resp.raise_for_status()] *)
Definition raise_for_status (resp : response) : Py.outcome unit :=
  if is_success (status_code resp) then Py.Return tt
  else Py.Raise (Py.HTTPStatusError (status_code resp)).

(** [resp.json()] *)
Definition response_json (resp : response) : Py.outcome Json.value :=
  match body resp with
  | Some v => Py.Return v
  | None => Py.Raise Py.JSONDecodeError
  end.

Section Request.

(** The HTTP exchange [client.request] of the transport library. *)
Variable transport : call -> response.

Definition request (c : call) : Py.outcome Json.value :=
  let resp := transport c in
  if (status_code resp =? 429)%Z then
    retry <- retry_after_of (headers resp) ;;
    Py.Raise (Py.RateLimitedError (Py.mkRateLimited retry))
  else
    _ <- raise_for_status resp ;;
    response_json resp.

End Request.

End CodebeamerClient.

(** ** [main.py]: the tools [list_projects], [query_items] and
    [get_project_details] *)

Module Main.

Import CodebeamerClient.

(** What [ctx.stream] is given. *)
Inductive event : Type :=
| START
| PROGRESS (page : Z) (itemsFetched : nat).

(** The dict [query_items] returns. *)
Record query_result : Type := mkResult {
  totalCount : nat;
  items : list Json.value
}.

(** The variables of the loop, with what was streamed and which calls the
    gateway received so far. *)
Record state : Type := mkState {
  page : Z;
  all_items : list Json.value;
  streamed : list event;
  calls : list call
}.

Inductive step : Type :=
| Next (st : state)
| Stop (o : Py.outcome query_result) (st : state).

Definition query_call (access_token cbql : string) (page : Z)
    (page_size : option Z) : call :=
  mkCall access_token "POST" "/v3/items/query"
    (Some (Json.Object [("queryString", Json.Str cbql);
                        ("page", Json.Int page);
                        ("pageSize", Json.of_optional_int page_size)])).

Section Tools.

(** [self.client.request] *)
Variable client : call -> Py.outcome Json.value.
Variable access_token : string.

Section QueryItems.

Variable cbql : string.
Variable page_size : option Z.

(** One turn of [while True]. *)
Definition loop_body (st : state) : step :=
  let c := query_call access_token cbql (page st) page_size in
  let st := mkState (page st) (all_items st) (streamed st) (calls st ++ [c]) in
  match client c with
  | Py.Raise e => Stop (Py.Raise e) st
  | Py.Return result =>
      match Json.get result "items" (Json.Array []) with
      | Py.Raise e => Stop (Py.Raise e) st
      | Py.Return items =>
          match Json.iter items with
          | Py.Raise e => Stop (Py.Raise e) st
          | Py.Return elems =>
              let st := mkState (page st) (all_items st ++ elems)
                          (streamed st) (calls st) in
              match Json.len items with
              | Py.Raise e => Stop (Py.Raise e) st
              | Py.Return n =>
                  let st := mkState (page st) (all_items st)
                              (streamed st ++ [PROGRESS (page st) n])
                              (calls st) in
                  match page_size with
                  | None => Stop (Py.Raise Py.TypeError) st
                  | Some size =>
                      if (Z.of_nat n <? size)%Z then
                        Stop (Py.Return
                                (mkResult (List.length (all_items st))
                                   (all_items st))) st
                      else
                        Next (mkState (page st + 1) (all_items st)
                                (streamed st) (calls st))
                  end
              end
          end
      end
  end.

(** [while True], cut after [fuel] turns; [None] when the loop is still
    running then. *)
Fixpoint while_true (fuel : nat) (st : state)
    : option (Py.outcome query_result * state) :=
  match fuel with
  | O => None
  | S fuel' =>
      match loop_body st with
      | Stop o st' => Some (o, st')
      | Next st' => while_true fuel' st'
      end
  end.

(** [except RateLimited as e: raise RuntimeError(f"RATE_LIMITED: ...")] of
    [query_items]. *)
Definition except_RateLimited {A : Type} (o : Py.outcome A) : Py.outcome A :=
  match o with
  | Py.Raise (Py.RateLimitedError e) =>
      Py.Raise
        (Py.RuntimeError ("RATE_LIMITED: " ++ Py.str_of_int (Py.retry_after e)))
  | _ => o
  end.

Definition query_items (fuel : nat)
    : option (Py.outcome query_result * state) :=
  let st := mkState 1 [] [START] [] in
  match while_true fuel st with
  | Some (o, st') => Some (except_RateLimited o, st')
  | None => None
  end.

End QueryItems.

(** [except RateLimited] of [get_project_details]. *)
Definition except_RateLimited_details {A : Type} (o : Py.outcome A)
    : Py.outcome A :=
  match o with
  | Py.Raise (Py.RateLimitedError e) =>
      Py.Raise
        (Py.RuntimeError ("RATE_LIMITED:" ++ Py.str_of_int (Py.retry_after e)))
  | _ => o
  end.

Definition get_or_None (d : Json.value) (key : string) : Py.outcome Json.value :=
  Json.get d key Json.Null.

Definition get_project_details (project_id : Z) : Py.outcome Json.value :=
  except_RateLimited_details
    (project <- client (mkCall access_token "GET"
                          ("/v3/projects/" ++ Py.str_of_int project_id) None) ;;
     id <- Json.getitem project "id" ;;
     name <- Json.getitem project "name" ;;
     description <- get_or_None project "description" ;;
     key <- get_or_None project "key" ;;
     createdAt <- get_or_None project "createdAt" ;;
     status <- get_or_None project "status" ;;
     Py.Return (Json.Object [("id", id); ("name", name);
                             ("description", description); ("key", key);
                             ("createdAt", createdAt); ("status", status)])).

Fixpoint project_summaries (projects : list Json.value)
    : Py.outcome (list Json.value) :=
  match projects with
  | [] => Py.Return []
  | p :: rest =>
      id <- Json.getitem p "id" ;;
      name <- Json.getitem p "name" ;;
      more <- project_summaries rest ;;
      Py.Return (Json.Object [("id", id); ("name", name)] :: more)
  end.

Definition list_projects : Py.outcome Json.value :=
  except_RateLimited
    (projects <- client (mkCall access_token "GET" "v3/projects" None) ;;
     elems <- Json.iter projects ;;
     summaries <- project_summaries elems ;;
     Py.Return (Json.Object [("projects", Json.Array summaries)])).

End Tools.

End Main.

(** ** Vocabulary of the specification *)

Module Spec.

(** [s] consists of whitespace only (the empty string included). *)
Fixpoint all_space (s : string) : bool :=
  match s with
  | EmptyString => true
  | String c r => Py.isspace c && all_space r
  end.

(** [sub] occurs in [s]. *)
Definition occurs (sub s : string) : Prop :=
  exists pre post, s = pre ++ sub ++ post.

(** [kw] occurs in [s] up to the case of letters. *)
Definition occurs_ci (kw s : string) : Prop :=
  exists pre mid post, s = pre ++ mid ++ post /\ Py.upper mid = Py.upper kw.

Definition no_space_at_start (r : string) : Prop :=
  forall c r', r = String c r' -> Py.isspace c = false.

Definition no_space_at_end (r : string) : Prop :=
  forall r' c, r = r' ++ String c EmptyString -> Py.isspace c = false.

(** [r] is [s] without its leading and trailing whitespace, and nothing
    else changed. *)
Definition is_trim (s r : string) : Prop :=
  exists pre post,
    s = pre ++ r ++ post /\ all_space pre = true /\ all_space post = true /\
    no_space_at_start r /\ no_space_at_end r.

(** Declarative reading of a regular expression: [matches ic r s] when the
    whole of [s] is a word of [r]; [ic] is the flag [re.IGNORECASE]. *)
Inductive matches (ic : bool) : Re.regex -> string -> Prop :=
| MEps : matches ic Re.Eps ""
| MChr p a : Re.chr_matches ic p a = true -> matches ic (Re.Chr p) (String a "")
| MSpace a : Py.isspace a = true -> matches ic Re.Space (String a "")
| MCat r1 r2 s1 s2 :
    matches ic r1 s1 -> matches ic r2 s2 -> matches ic (Re.Cat r1 r2) (s1 ++ s2)
| MAltL r1 r2 s : matches ic r1 s -> matches ic (Re.Alt r1 r2) s
| MAltR r1 r2 s : matches ic r2 s -> matches ic (Re.Alt r1 r2) s
| MStarNil r : matches ic (Re.Star r) ""
| MStarApp r s1 s2 :
    matches ic r s1 -> matches ic (Re.Star r) s2 ->
    matches ic (Re.Star r) (s1 ++ s2).

(** The last character of [pre], or [prev] when [pre] is empty. *)
Fixpoint last_char (prev : option ascii) (pre : string) : option ascii :=
  match pre with
  | EmptyString => prev
  | String c r => last_char (Some c) r
  end.

(** The pattern is found in [s]: a part [m] of [s] is a word of the body,
    with a word boundary in front of it. *)
Definition found (p : Re.pattern) (prev : option ascii) (s : string) : Prop :=
  exists pre m post,
    s = pre ++ m ++ post /\
    Re.word_boundary (last_char prev pre) (m ++ post) = true /\
    matches (Re.ignorecase p) (Re.body p) m.

(** The three shapes of a scope clause, letters in any case: [tracker =],
    [tracker IN] and [project =], with optional whitespace before [=] and
    at least one whitespace character before [IN]. *)
Definition scope_clause (m : string) : Prop :=
  exists ws,
    all_space ws = true /\
    (Py.upper m = "TRACKER" ++ ws ++ "=" \/
     (ws <> "" /\ Py.upper m = "TRACKER" ++ ws ++ "IN") \/
     Py.upper m = "PROJECT" ++ ws ++ "=").

(** [s] contains a scope clause that starts a word: no letter, digit or
    underscore stands right before it. *)
Definition has_scope_clause (s : string) : Prop :=
  exists pre m post,
    s = pre ++ m ++ post /\
    Re.is_word (last_char None pre) = false /\
    scope_clause m.

End Spec.

(** ** Stub remote services *)

Module Stub.

Import Py CodebeamerClient Main.

(** The decoded body of a page holding the items [elems]. *)
Definition page_body (elems : list Json.value) : Json.value :=
  Json.Object [("items", Json.Array elems)].

(** The page number a call asks for. *)
Definition page_of (c : call) : Z :=
  match json c with
  | Some body =>
      match Json.get body "page" Json.Null with
      | Return (Json.Int p) => p
      | _ => 0%Z
      end
  | None => 0%Z
  end.

(** A remote service that answers the call for page [k] with the [k]-th
    entry of [script], and with an empty page past its end. *)
Definition scripted (script : list (outcome Json.value)) (c : call)
    : outcome Json.value :=
  nth (Z.to_nat (page_of c - 1)) script (Return (page_body [])).

(** A gateway on which every call raises [RateLimited(retry)]. *)
Definition rate_limiting (retry : Z) (c : call) : outcome Json.value :=
  Raise (RateLimitedError (mkRateLimited retry)).

Section Pages.

Variable client : call -> outcome Json.value.
Variable access_token cbql : string.
Variable page_size : option Z.

(** The gateway answers the call for page [p] with a body whose item list
    is [elems]. *)
Definition returns_page (p : Z) (elems : list Json.value) : Prop :=
  exists result items,
    client (query_call access_token cbql p page_size) = Return result /\
    Json.get result "items" (Json.Array []) = Return items /\
    Json.iter items = Return elems.

(** From page [p] on the gateway serves the pages [pages], in this order. *)
Fixpoint serves (p : Z) (pages : list (list Json.value)) : Prop :=
  match pages with
  | [] => True
  | elems :: rest => returns_page p elems /\ serves (p + 1) rest
  end.

(** A page that makes the loop go on: it is not shorter than the page
    size. *)
Definition is_full (elems : list Json.value) : Prop :=
  match page_size with
  | Some size => (size <= Z.of_nat (List.length elems))%Z
  | None => False
  end.

(** The progress events of the pages [pages], numbered from [p]. *)
Fixpoint progress_events (p : Z) (pages : list (list Json.value)) : list event :=
  match pages with
  | [] => []
  | elems :: rest =>
      PROGRESS p (List.length elems) :: progress_events (p + 1) rest
  end.

(** The calls for [n] pages in a row, from page [p]. *)
Fixpoint page_calls (p : Z) (n : nat) : list call :=
  match n with
  | O => []
  | S n' => query_call access_token cbql p page_size :: page_calls (p + 1) n'
  end.

(** The loop state once the page [elems] is appended and its progress
    streamed. *)
Definition fetched (st : state) (elems : list Json.value) : state :=
  mkState (page st) (all_items st ++ elems)
    (streamed st ++ [PROGRESS (page st) (List.length elems)])
    (calls st ++ [query_call access_token cbql (page st) page_size]).

(** The loop state after [page += 1]. *)
Definition turn_page (st : state) : state :=
  mkState (page st + 1) (all_items st) (streamed st) (calls st).

(** The loop state after the pages [pages] were fetched and the loop went
    on after each. *)
Definition advance (st : state) (pages : list (list Json.value)) : state :=
  mkState (page st + Z.of_nat (List.length pages))
    (all_items st ++ List.concat pages)
    (streamed st ++ progress_events (page st) pages)
    (calls st ++ page_calls (page st) (List.length pages)).

End Pages.

End Stub.

(** ** [main.py]: the tools [list_trackers] and [get_tracker_details] *)

Module Tools.

Import Py CodebeamerClient Main.

Section Trackers.

(** [self.client.request] *)
Variable client : call -> outcome Json.value.
Variable access_token : string.

(** The list comprehension of [list_trackers]. *)
Fixpoint tracker_summaries (trackers : list Json.value)
    : outcome (list Json.value) :=
  match trackers with
  | [] => Return []
  | t :: rest =>
      id <- Json.getitem t "id" ;;
      name <- Json.getitem t "name" ;;
      type <- get_or_None t "type" ;;
      more <- tracker_summaries rest ;;
      Return (Json.Object [("id", id); ("name", name); ("type", type)] :: more)
  end.

Definition list_trackers (project_id : Z) : outcome Json.value :=
  trackers <- client (mkCall access_token "GET"
                        ("/v3/projects/" ++ str_of_int project_id ++ "/trackers")
                        None) ;;
  elems <- Json.iter trackers ;;
  summaries <- tracker_summaries elems ;;
  Return (Json.Object [("trackers", Json.Array summaries)]).

Definition get_tracker_details (tracker_id : Z) : outcome Json.value :=
  tracker <- client (mkCall access_token "GET"
                       ("/v3/trackers/" ++ str_of_int tracker_id) None) ;;
  id <- Json.getitem tracker "id" ;;
  name <- Json.getitem tracker "name" ;;
  type <- Json.getitem tracker "type" ;;
  description <- get_or_None tracker "description" ;;
  project <- Json.getitem tracker "project" ;;
  projectId <- Json.getitem project "id" ;;
  Return (Json.Object [("id", id); ("name", name); ("type", type);
                       ("description", description);
                       ("projectId", projectId)]).

End Trackers.

End Tools.

(** ** Vocabulary for the runs of [query_items] *)

Module Trace.

Import Py CodebeamerClient Main Stub.

(** The items the streamed events report, summed over the PROGRESS
    events. *)
Fixpoint fetched_total (events : list event) : nat :=
  match events with
  | [] => 0
  | START :: rest => fetched_total rest
  | PROGRESS _ n :: rest => n + fetched_total rest
  end.

(** [s] contains the text of a scope clause somewhere, whatever stands
    before it: [tracker =], [tracker IN] or [project =] in any letter case
    and with the whitespace the pattern tolerates. *)
Definition scope_text_occurs (s : string) : Prop :=
  exists pre m post, s = pre ++ m ++ post /\ Spec.scope_clause m.

(** No character of [s] is whitespace. *)
Fixpoint no_space (s : string) : bool :=
  match s with
  | EmptyString => true
  | String c r => negb (isspace c) && no_space r
  end.

(** The state of the loop of [query_items] after the pages [pages], all of
    them full, were fetched from page 1 on. *)
Definition after_pages (client : call -> outcome Json.value)
    (access_token cbql : string) (page_size : option Z)
    (st : state) (pages : list (list Json.value)) : Prop :=
  page st = (1 + Z.of_nat (List.length pages))%Z /\
  all_items st = List.concat pages /\
  streamed st = START :: progress_events 1 pages /\
  calls st = page_calls access_token cbql page_size 1 (List.length pages) /\
  serves client access_token cbql page_size 1 pages /\
  Forall (is_full page_size) pages.

(** The summary [list_projects] makes of the project [p]. *)
Definition summarises (p summary : Json.value) : Prop :=
  exists id name,
    Json.getitem p "id" = Return id /\
    Json.getitem p "name" = Return name /\
    summary = Json.Object [("id", id); ("name", name)].

(** The value of the field [key] of an object, [None] when it is absent. *)
Definition field_or_null (key : string) (fields : list (string * Json.value))
    : Json.value :=
  match Json.lookup key fields with
  | Some v => v
  | None => Json.Null
  end.

(** The summary [list_trackers] makes of the tracker [t]. *)
Definition summarises_tracker (t summary : Json.value) : Prop :=
  exists fields id name,
    t = Json.Object fields /\
    Json.lookup "id" fields = Some id /\
    Json.lookup "name" fields = Some name /\
    summary = Json.Object [("id", id); ("name", name);
                           ("type", field_or_null "type" fields)].

(** The value of the decimal digits [d], most significant first, read
    after the value [acc]. *)
Fixpoint horner (acc : Z) (d : Decimal.uint) : Z :=
  match d with
  | Decimal.Nil => acc
  | Decimal.D0 r => horner (10 * acc + 0) r
  | Decimal.D1 r => horner (10 * acc + 1) r
  | Decimal.D2 r => horner (10 * acc + 2) r
  | Decimal.D3 r => horner (10 * acc + 3) r
  | Decimal.D4 r => horner (10 * acc + 4) r
  | Decimal.D5 r => horner (10 * acc + 5) r
  | Decimal.D6 r => horner (10 * acc + 6) r
  | Decimal.D7 r => horner (10 * acc + 7) r
  | Decimal.D8 r => horner (10 * acc + 8) r
  | Decimal.D9 r => horner (10 * acc + 9) r
  end.

End Trace.

(** * Properties *)

(** ** Strings *)

Module PyFacts.

Import Py Spec.

Lemma append_nil_r (s : string) : s ++ "" = s.
Proof. induction s as [|c r IH]; simpl; [reflexivity | now rewrite IH]. Qed.

Lemma append_assoc (a b c : string) : (a ++ b) ++ c = a ++ b ++ c.
Proof. induction a as [|x a IH]; simpl; [reflexivity | now rewrite IH]. Qed.

Lemma startswith_iff (p s : string) :
  startswith p s = true <-> exists r, s = p ++ r.
Proof.
  revert s; induction p as [|a p IH]; intros s; simpl.
  - split; [intros _; now exists s | reflexivity].
  - destruct s as [|b s].
    + split; [discriminate | intros [r Hr]; discriminate].
    + rewrite andb_true_iff, Ascii.eqb_eq, IH. split.
      * intros [-> [r ->]]. now exists r.
      * intros [r Hr]. injection Hr as -> ->. split; [reflexivity | now exists r].
Qed.

Lemma contains_iff (sub s : string) : contains sub s = true <-> occurs sub s.
Proof.
  unfold occurs. induction s as [|c s IH]; simpl.
  - rewrite orb_false_r, startswith_iff. split.
    + intros [r Hr]. now exists "", r.
    + intros [[|x pre] [post H]]; simpl in H; [now exists post | discriminate].
  - rewrite orb_true_iff, startswith_iff, IH. split.
    + intros [[r Hr] | [pre [post H]]].
      * now exists "", r.
      * exists (String c pre), post. simpl. now rewrite H.
    + intros [[|x pre] [post H]]; simpl in H.
      * left. now exists post.
      * right. injection H as -> ->. now exists pre, post.
Qed.

Lemma upper_app (a b : string) : upper (a ++ b) = upper a ++ upper b.
Proof. induction a as [|x a IH]; simpl; [reflexivity | now rewrite IH]. Qed.

Lemma upper_split (s x y : string) :
  upper s = x ++ y -> exists a b, s = a ++ b /\ upper a = x /\ upper b = y.
Proof.
  revert s; induction x as [|c x IH]; intros s H; simpl in H.
  - now exists "", s.
  - destruct s as [|d s]; simpl in H; [discriminate |].
    injection H as Hc Hs. destruct (IH _ Hs) as [a [b [-> [Ha Hb]]]].
    exists (String d a), b. simpl. now rewrite Hc, Ha.
Qed.

Lemma upper_char_idem (c : ascii) : upper_char (upper_char c) = upper_char c.
Proof.
  destruct c as [[] [] [] [] [] [] [] []]; reflexivity.
Qed.

Lemma upper_idem (s : string) : upper (upper s) = upper s.
Proof.
  induction s as [|c s IH]; simpl; [reflexivity |].
  now rewrite upper_char_idem, IH.
Qed.

(** The test [kw in cbql.upper()] is the case-insensitive occurrence of an
    upper-case keyword. *)
Lemma contains_upper_iff (kw s : string) :
  upper kw = kw -> (contains kw (upper s) = true <-> occurs_ci kw s).
Proof.
  intros Hkw. rewrite contains_iff. unfold occurs, occurs_ci. split.
  - intros [x [y H]].
    destruct (upper_split _ _ _ H) as [pre [rest [-> [_ Hrest]]]].
    destruct (upper_split _ _ _ Hrest) as [mid [post [-> [Hmid _]]]].
    exists pre, mid, post. split; [reflexivity | now rewrite Hkw].
  - intros [pre [mid [post [-> Hmid]]]].
    exists (upper pre), (upper post).
    now rewrite !upper_app, Hmid, Hkw.
Qed.

Lemma all_space_app (a b : string) :
  all_space (a ++ b) = all_space a && all_space b.
Proof.
  induction a as [|c a IH]; simpl; [reflexivity |].
  now rewrite IH, andb_assoc.
Qed.

Lemma lstrip_decomp (s : string) :
  exists pre, s = pre ++ lstrip s /\ all_space pre = true.
Proof.
  induction s as [|c s [pre [H1 H2]]]; simpl.
  - now exists "".
  - destruct (isspace c) eqn:Hc.
    + exists (String c pre). simpl. rewrite Hc, H2. now rewrite <- H1.
    + now exists "".
Qed.

Lemma lstrip_head (s : string) : no_space_at_start (lstrip s).
Proof.
  unfold no_space_at_start.
  induction s as [|c s IH]; simpl; intros d r' H; [discriminate |].
  destruct (isspace c) eqn:Hc; [now apply (IH d r') |].
  now injection H as <- _.
Qed.

Lemma lstrip_fix (s : string) : no_space_at_start s -> lstrip s = s.
Proof.
  destruct s as [|c r]; intros H; simpl; [reflexivity |].
  now rewrite (H c r eq_refl).
Qed.

Lemma lstrip_all_space (s : string) : lstrip s = "" <-> all_space s = true.
Proof.
  induction s as [|c s IH]; simpl; [tauto |].
  destruct (isspace c); simpl; [exact IH | split; discriminate].
Qed.

Lemma rstrip_cons (c : ascii) (r : string) :
  rstrip (String c r) =
  if isspace c && all_space r then "" else String c (rstrip r).
Proof.
  assert (E : forall t, rstrip t = "" <-> all_space t = true).
  { induction t as [|d t IH]; simpl; [tauto |].
    destruct (rstrip t) eqn:Ht.
    - destruct (isspace d); simpl.
      + rewrite <- IH. tauto.
      + split; discriminate.
    - split; [discriminate |]. rewrite andb_true_iff. intros [_ H].
      apply IH in H. discriminate. }
  simpl. destruct (rstrip r) eqn:Hr.
  - assert (all_space r = true) as -> by now apply E.
    rewrite andb_true_r. now destruct (isspace c).
  - destruct (all_space r) eqn:Ha.
    + apply E in Ha. congruence.
    + now rewrite andb_false_r.
Qed.

Lemma rstrip_all_space (s : string) : rstrip s = "" <-> all_space s = true.
Proof.
  induction s as [|c s IH]; [simpl; tauto |].
  rewrite rstrip_cons. simpl.
  destruct (isspace c && all_space s); split; congruence.
Qed.

Lemma rstrip_decomp (s : string) :
  exists post, s = rstrip s ++ post /\ all_space post = true.
Proof.
  induction s as [|c s [post [H1 H2]]].
  - now exists "".
  - rewrite rstrip_cons. destruct (isspace c && all_space s) eqn:E.
    + exists (String c s). now simpl.
    + exists post. simpl. now rewrite <- H1.
Qed.

Lemma rstrip_last (s : string) : no_space_at_end (rstrip s).
Proof.
  unfold no_space_at_end.
  induction s as [|c s IH]; intros r' d H.
  - destruct r'; discriminate.
  - rewrite rstrip_cons in H. destruct (isspace c && all_space s) eqn:E.
    + destruct r'; discriminate.
    + destruct r' as [|x r']; simpl in H.
      * injection H as <- Hr. apply rstrip_all_space in Hr.
        rewrite Hr, andb_true_r in E. exact E.
      * injection H as _ Hr. now apply (IH r' d).
Qed.

Lemma rstrip_head (s : string) :
  no_space_at_start s -> no_space_at_start (rstrip s).
Proof.
  unfold no_space_at_start. intros H c r' E.
  destruct s as [|d s]; [discriminate |].
  rewrite rstrip_cons in E. specialize (H d s eq_refl).
  rewrite H in E. simpl in E. now injection E as <- _.
Qed.

Lemma rstrip_fix (s : string) : no_space_at_end s -> rstrip s = s.
Proof.
  unfold no_space_at_end. induction s as [|c s IH]; intros H; [reflexivity |].
  rewrite rstrip_cons.
  assert (Hs : no_space_at_end s).
  { intros r' d ->. apply (H (String c r') d). reflexivity. }
  rewrite (IH Hs). destruct (isspace c && all_space s) eqn:E; [| reflexivity].
  apply andb_true_iff in E as [Hc Ha]. exfalso.
  destruct s as [|d s].
  - specialize (H "" c eq_refl). congruence.
  - destruct (rstrip_decomp (String d s)) as [post [H1 H2]].
    apply rstrip_all_space in Ha. rewrite IH in Ha by exact Hs. discriminate.
Qed.

Lemma strip_is_trim (s : string) : is_trim s (strip s).
Proof.
  unfold is_trim, strip.
  destruct (lstrip_decomp s) as [pre [H1 H2]].
  destruct (rstrip_decomp (lstrip s)) as [post [H3 H4]].
  exists pre, post. repeat split; try assumption.
  - now rewrite <- H3.
  - apply rstrip_head, lstrip_head.
  - apply rstrip_last.
Qed.

Lemma strip_idem (s : string) : strip (strip s) = strip s.
Proof.
  unfold strip.
  rewrite (lstrip_fix (rstrip (lstrip s))) by apply rstrip_head, lstrip_head.
  apply rstrip_fix, rstrip_last.
Qed.

Lemma strip_empty_iff (s : string) : strip s = "" <-> all_space s = true.
Proof.
  unfold strip. rewrite rstrip_all_space.
  destruct (lstrip_decomp s) as [pre [H1 H2]].
  rewrite H1 at 2. rewrite all_space_app, H2. simpl. tauto.
Qed.

End PyFacts.

(** ** The regular-expression matcher against its declarative reading *)

Module ReFacts.

Import Py Re Spec PyFacts.

Section Matcher.

Variable ic : bool.

Lemma nullable_iff (r : regex) : nullable r = true <-> matches ic r "".
Proof.
  induction r as [| | p | | r1 IH1 r2 IH2 | r1 IH1 r2 IH2 | r IH]; simpl.
  - split; [discriminate | intros H; inversion H].
  - split; [constructor | reflexivity].
  - split; [discriminate | intros H; inversion H].
  - split; [discriminate | intros H; inversion H].
  - rewrite andb_true_iff, IH1, IH2. split.
    + intros [H1 H2]. change "" with ("" ++ ""). now constructor.
    + intros H. inversion H as [| | | ? ? s1 s2 H1 H2 [E1 E2] E | | | |].
      destruct s1; [| discriminate]. simpl in E. subst. now split.
  - rewrite orb_true_iff, IH1, IH2. split.
    + intros [H | H]; [now apply MAltL | now apply MAltR].
    + intros H. inversion H; subst; [now left | now right].
  - split; [constructor | reflexivity].
Qed.

(** A non-empty word of [Star r] starts with a non-empty word of [r]. *)
Lemma star_cons (r : regex) (a : ascii) (s : string) :
  matches ic (Star r) (String a s) ->
  exists s1 s2, s = s1 ++ s2 /\ matches ic r (String a s1) /\
                matches ic (Star r) s2.
Proof.
  intros H. remember (Star r) as r0 eqn:Er. remember (String a s) as w eqn:Ew.
  induction H as [| | | | | | r' | r' s1 s2 H1 _ H2 IH2]; try discriminate.
  injection Er as ->. destruct s1 as [|b s1]; simpl in Ew.
  - now apply IH2.
  - injection Ew as -> <-. now exists s1, s2.
Qed.

Lemma deriv_iff (r : regex) (a : ascii) (s : string) :
  matches ic (deriv ic a r) s <-> matches ic r (String a s).
Proof.
  revert s.
  induction r as [| | p | | r1 IH1 r2 IH2 | r1 IH1 r2 IH2 | r IH];
    intros s; simpl.
  - split; intros H; inversion H.
  - split; intros H; inversion H.
  - destruct (chr_matches ic p a) eqn:E; split; intros H; inversion H; subst.
    + now constructor.
    + constructor.
    + congruence.
  - destruct (isspace a) eqn:E; split; intros H; inversion H; subst.
    + now constructor.
    + constructor.
    + congruence.
  - assert (Hcat : matches ic (Cat (deriv ic a r1) r2) s ->
                   matches ic (Cat r1 r2) (String a s)).
    { intros H. inversion H as [| | | ? ? s1 s2 H1 H2 | | | |]; subst.
      apply IH1 in H1. change (String a (s1 ++ s2)) with (String a s1 ++ s2).
      now constructor. }
    assert (Hinv : matches ic (Cat r1 r2) (String a s) ->
                   matches ic (Cat (deriv ic a r1) r2) s \/
                   (matches ic r1 "" /\ matches ic r2 (String a s))).
    { intros H. inversion H as [| | | ? ? s1 s2 H1 H2 [E1 E2] E | | | |].
      destruct s1 as [|b s1]; simpl in E.
      - subst. now right.
      - injection E as -> <-. left. constructor; [now apply IH1 | exact H2]. }
    destruct (nullable r1) eqn:N.
    + split.
      * intros H. inversion H; subst; [now apply Hcat |].
        change (String a s) with ("" ++ String a s).
        constructor; [now apply nullable_iff | now apply IH2].
      * intros H. destruct (Hinv H) as [H' | [_ H']].
        -- now apply MAltL.
        -- apply MAltR. now apply IH2.
    + split; [exact Hcat |].
      intros H. destruct (Hinv H) as [H' | [H' _]]; [exact H' |].
      apply nullable_iff in H'. congruence.
  - split; intros H; inversion H; subst.
    + apply MAltL. now apply IH1.
    + apply MAltR. now apply IH2.
    + apply MAltL. now apply IH1.
    + apply MAltR. now apply IH2.
  - split.
    + intros H. inversion H as [| | | ? ? s1 s2 H1 H2 | | | |]; subst.
      apply IH in H1. change (String a (s1 ++ s2)) with (String a s1 ++ s2).
      now constructor.
    + intros H. destruct (star_cons _ _ _ H) as [s1 [s2 [-> [H1 H2]]]].
      constructor; [now apply IH | exact H2].
Qed.

Lemma match_prefix_iff (r : regex) (s : string) :
  match_prefix ic r s = true <-> exists m post, s = m ++ post /\ matches ic r m.
Proof.
  revert r; induction s as [|a s IH]; intros r; simpl.
  - rewrite orb_false_r, nullable_iff. split.
    + intros H. now exists "", "".
    + intros [m [post [E H]]]. destruct m; [exact H | discriminate].
  - rewrite orb_true_iff, nullable_iff, IH. split.
    + intros [H | [m [post [-> H]]]].
      * now exists "", (String a s).
      * exists (String a m), post. split; [reflexivity | now apply deriv_iff].
    + intros [[|b m] [post [E H]]]; [now left |].
      simpl in E. injection E as <- ->. right.
      exists m, post. split; [reflexivity | now apply deriv_iff].
Qed.

End Matcher.

Lemma search_from_iff (p : pattern) (prev : option ascii) (s : string) :
  search_from p prev s = true <-> found p prev s.
Proof.
  unfold found. revert prev; induction s as [|a s IH]; intros prev;
    cbn [search_from].
  - rewrite orb_false_r, andb_true_iff, match_prefix_iff. split.
    + intros [B [m [post [E H]]]]. exists "", m, post. simpl.
      rewrite <- E. now repeat split.
    + intros [pre [m [post [E [B H]]]]].
      destruct pre; [| discriminate]. simpl in E, B. rewrite <- E in B.
      split; [exact B | now exists m, post].
  - rewrite orb_true_iff, andb_true_iff, match_prefix_iff, IH. split.
    + intros [[B [m [post [E H]]]] | [pre [m [post [E [B H]]]]]].
      * exists "", m, post. simpl. rewrite <- E. now repeat split.
      * exists (String a pre), m, post. simpl. rewrite E. now repeat split.
    + intros [[|b pre] [m [post [E [B H]]]]]; simpl in E, B.
      * left. rewrite <- E in B. split; [exact B | now exists m, post].
      * injection E as <- ->. right. now exists pre, m, post.
Qed.

End ReFacts.

(** ** What [SCOPE_PATTERN] finds *)

Module ScopeFacts.

Import Py Re Spec PyFacts ReFacts CbqlValidator.

Lemma upper_lower_char (c : ascii) : upper_char (lower_char c) = upper_char c.
Proof. destruct c as [[] [] [] [] [] [] [] []]; reflexivity. Qed.

Lemma lower_upper_char (c : ascii) : lower_char (upper_char c) = lower_char c.
Proof. destruct c as [[] [] [] [] [] [] [] []]; reflexivity. Qed.

Lemma isspace_upper_char (c : ascii) : isspace (upper_char c) = isspace c.
Proof. destruct c as [[] [] [] [] [] [] [] []]; reflexivity. Qed.

Lemma isword_upper_char (c : ascii) : isword (upper_char c) = isword c.
Proof. destruct c as [[] [] [] [] [] [] [] []]; reflexivity. Qed.

Lemma isword_not_space (c : ascii) : isword c = true -> isspace c = false.
Proof. destruct c as [[] [] [] [] [] [] [] []]; vm_compute; congruence. Qed.

Lemma chr_matches_upper (p a : ascii) :
  chr_matches true p a = true <-> upper_char a = upper_char p.
Proof.
  unfold chr_matches. rewrite Ascii.eqb_eq. split; intros H.
  - now rewrite <- (upper_lower_char a), <- H, upper_lower_char.
  - now rewrite <- (lower_upper_char a), H, lower_upper_char.
Qed.

Lemma matches_cat (ic : bool) (r1 r2 : regex) (s : string) :
  matches ic (Cat r1 r2) s <->
  exists s1 s2, s = s1 ++ s2 /\ matches ic r1 s1 /\ matches ic r2 s2.
Proof.
  split.
  - intros H. inversion H as [| | | ? ? s1 s2 H1 H2 | | | |]; subst.
    now exists s1, s2.
  - intros [s1 [s2 [-> [H1 H2]]]]. now constructor.
Qed.

Lemma matches_alt (ic : bool) (r1 r2 : regex) (s : string) :
  matches ic (Alt r1 r2) s <-> matches ic r1 s \/ matches ic r2 s.
Proof.
  split.
  - intros H. inversion H; subst; [now left | now right].
  - intros [H | H]; [now apply MAltL | now apply MAltR].
Qed.

Lemma matches_chr (p : ascii) (s : string) :
  matches true (Chr p) s <-> upper s = String (upper_char p) "".
Proof.
  split.
  - intros H. inversion H as [| ? a E | | | | | |]; subst. simpl.
    apply chr_matches_upper in E. now rewrite E.
  - destruct s as [|a [|b s]]; simpl; intros H; try discriminate.
    injection H as H. constructor. now apply chr_matches_upper.
Qed.

Lemma matches_space (ic : bool) (s : string) :
  matches ic Space s <-> exists a, s = String a "" /\ isspace a = true.
Proof.
  split.
  - intros H. inversion H; subst. eauto.
  - intros [a [-> H]]. now constructor.
Qed.

Lemma matches_literal (w s : string) :
  matches true (literal w) s <-> upper s = upper w.
Proof.
  revert s; induction w as [|p w IH]; intros s; simpl.
  - split.
    + intros H. now inversion H.
    + destruct s; [constructor | discriminate].
  - rewrite matches_cat. split.
    + intros [s1 [s2 [-> [H1 H2]]]]. apply matches_chr in H1. apply IH in H2.
      now rewrite upper_app, H1, H2.
    + destruct s as [|a s]; simpl; [discriminate |]. intros H.
      injection H as Ha Hs. exists (String a ""), s. repeat split.
      * apply matches_chr. simpl. now rewrite Ha.
      * now apply IH.
Qed.

Lemma matches_star_space (ic : bool) (s : string) :
  matches ic (Star Space) s <-> all_space s = true.
Proof.
  split.
  - intros H. remember (Star Space) as r eqn:Er.
    induction H as [| | | | | | r' | r' s1 s2 H1 _ H2 IH2]; try discriminate.
    + reflexivity.
    + injection Er as ->. apply matches_space in H1 as [a [-> Ha]].
      simpl. rewrite Ha. now apply IH2.
  - induction s as [|a s IH]; simpl.
    + constructor.
    + rewrite andb_true_iff. intros [Ha Hs].
      change (String a s) with (String a "" ++ s).
      constructor; [now constructor | now apply IH].
Qed.

Lemma all_space_upper (s : string) : all_space (upper s) = all_space s.
Proof.
  induction s as [|c s IH]; simpl; [reflexivity |].
  now rewrite isspace_upper_char, IH.
Qed.

Lemma upper_all_space (s : string) : all_space s = true -> upper s = s.
Proof.
  induction s as [|c s IH]; simpl; [reflexivity |].
  rewrite andb_true_iff. intros [Hc Hs]. rewrite (IH Hs). f_equal.
  unfold upper_char. destruct (islower c) eqn:E; [| reflexivity].
  exfalso. revert Hc E.
  destruct c as [[] [] [] [] [] [] [] []]; vm_compute; congruence.
Qed.

(** The words of the body of [SCOPE_PATTERN] are the three shapes of a
    scope clause. *)
Lemma scope_body_iff (m : string) :
  matches true (body SCOPE_PATTERN) m <-> scope_clause m.
Proof.
  unfold scope_clause. cbn [body SCOPE_PATTERN plus].
  rewrite !matches_alt. split.
  - intros [H | [H | H]];
      apply matches_cat in H as [s1 [s23 [-> [H1 H23]]]];
      apply matches_cat in H23 as [s2 [s3 [-> [H2 H3]]]];
      apply matches_literal in H1.
    + apply matches_star_space in H2. apply matches_chr in H3.
      exists s2. split; [exact H2 |]. left.
      now rewrite !upper_app, H1, H3, (upper_all_space s2).
    + apply matches_cat in H2 as [sa [sb [-> [Ha Hb]]]].
      apply matches_space in Ha as [a [-> Ha]].
      apply matches_star_space in Hb. apply matches_literal in H3.
      assert (Hws : all_space (String a "" ++ sb) = true)
        by (simpl; now rewrite Ha, Hb).
      exists (String a "" ++ sb). split; [exact Hws |]. right; left.
      split; [discriminate |].
      now rewrite !upper_app, H1, H3, <- upper_app, (upper_all_space _ Hws).
    + apply matches_star_space in H2. apply matches_chr in H3.
      exists s2. split; [exact H2 |]. right; right.
      now rewrite !upper_app, H1, H3, (upper_all_space s2).
  - intros [ws [Hws [H | [[Hne H] | H]]]];
      apply upper_split in H as [s1 [s23 [-> [H1 H23]]]];
      apply upper_split in H23 as [s2 [s3 [-> [H2 H3]]]];
      assert (Hs2 : all_space s2 = true)
        by (now rewrite <- all_space_upper, H2).
    + left. apply matches_cat. exists s1, (s2 ++ s3). repeat split.
      * now apply matches_literal.
      * apply matches_cat. exists s2, s3. repeat split.
        -- now apply matches_star_space.
        -- now apply matches_chr.
    + right; left. apply matches_cat. exists s1, (s2 ++ s3). repeat split.
      * now apply matches_literal.
      * apply matches_cat. exists s2, s3. repeat split.
        -- destruct s2 as [|a s2]; [simpl in H2; congruence |].
           simpl in Hs2. apply andb_true_iff in Hs2 as [Ha Hs2].
           apply matches_cat. exists (String a ""), s2. repeat split.
           ++ now constructor.
           ++ now apply matches_star_space.
        -- now apply matches_literal.
    + right; right. apply matches_cat. exists s1, (s2 ++ s3). repeat split.
      * now apply matches_literal.
      * apply matches_cat. exists s2, s3. repeat split.
        -- now apply matches_star_space.
        -- now apply matches_chr.
Qed.

(** A scope clause starts with a letter and ends with [=] or a letter. *)
Lemma scope_clause_first (m : string) :
  scope_clause m -> exists c r, m = String c r /\ isword c = true.
Proof.
  intros [ws [_ H]].
  assert (E : exists u r, upper m = String u r /\ isword u = true).
  { destruct H as [H | [[_ H] | H]]; rewrite H; simpl; eauto. }
  destruct E as [u [r [E Hu]]]. destruct m as [|c m]; [discriminate |].
  simpl in E. injection E as <- _. exists c, m. split; [reflexivity |].
  now rewrite <- isword_upper_char.
Qed.

Lemma scope_clause_last (m : string) :
  scope_clause m ->
  exists m' d, m = m' ++ String d "" /\ isspace d = false.
Proof.
  intros [ws [_ H]].
  assert (E : exists x u, upper m = x ++ String u "" /\ isspace u = false).
  { destruct H as [H | [[_ H] | H]]; rewrite H.
    - exists ("TRACKER" ++ ws), "="%char. now rewrite append_assoc.
    - exists ("TRACKER" ++ ws ++ "I"), "N"%char.
      now rewrite !append_assoc.
    - exists ("PROJECT" ++ ws), "="%char. now rewrite append_assoc. }
  destruct E as [x [u [E Hu]]].
  apply upper_split in E as [m' [t [-> [_ Ht]]]].
  destruct t as [|d [|e t]]; simpl in Ht; try discriminate.
  injection Ht as Hd. exists m', d. split; [reflexivity |].
  now rewrite <- isspace_upper_char, Hd.
Qed.

(** [SCOPE_PATTERN.search] succeeds exactly on the texts that contain a
    scope clause at the start of a word. *)
Lemma search_scope_iff (s : string) :
  search SCOPE_PATTERN s = true <-> has_scope_clause s.
Proof.
  unfold search, has_scope_clause. rewrite search_from_iff. unfold found.
  split; intros [pre [m [post [E [B H]]]]]; exists pre, m, post;
    (split; [exact E |]).
  - apply scope_body_iff in H. split; [| exact H].
    destruct (scope_clause_first _ H) as [c [r [-> Hc]]].
    unfold word_boundary in B. simpl in B. rewrite Hc in B.
    now destruct (is_word (last_char None pre)).
  - split; [| now apply scope_body_iff].
    destruct (scope_clause_first _ H) as [c [r [-> Hc]]].
    unfold word_boundary. simpl. now rewrite Hc, B.
Qed.

End ScopeFacts.

(** ** The validator *)

Module ValidatorFacts.

Import Py Re Spec PyFacts ReFacts ScopeFacts CbqlValidator.

Lemma occurs_inside (sub a t b : string) :
  occurs sub t -> occurs sub (a ++ t ++ b).
Proof.
  intros [pre [post ->]]. exists (a ++ pre), (post ++ b).
  now rewrite !append_assoc.
Qed.

Lemma keywords_upper (kw : string) :
  In kw FORBIDDEN_KEYWORDS -> upper kw = kw.
Proof.
  simpl. intros [<- | [<- | [<- | [<- | [<- | []]]]]]; reflexivity.
Qed.

Lemma keywords_start_with_letter (kw : string) :
  In kw FORBIDDEN_KEYWORDS -> exists c r, kw = String c r /\ isword c = true.
Proof.
  simpl. intros [<- | [<- | [<- | [<- | [<- | []]]]]]; eauto.
Qed.

Lemma first_forbidden_none (kws : list string) (u : string) :
  first_forbidden kws u = None <->
  forall kw, In kw kws -> contains kw u = false.
Proof.
  induction kws as [|k kws IH]; simpl.
  - split; [intros _ kw [] | reflexivity].
  - destruct (contains k u) eqn:E.
    + split; [discriminate |]. intros H. specialize (H k (or_introl eq_refl)).
      congruence.
    + rewrite IH. split.
      * intros H kw [<- | Hin]; [exact E | now apply H].
      * intros H kw Hin. apply H. now right.
Qed.

Lemma first_forbidden_some (kws : list string) (u kw : string) :
  In kw kws -> contains kw u = true ->
  exists kw' before after,
    kws = (before ++ kw' :: after)%list /\
    first_forbidden kws u = Some kw' /\
    contains kw' u = true /\
    (forall k, In k before -> contains k u = false).
Proof.
  induction kws as [|k kws IH]; simpl; [intros [] |].
  intros Hin Hkw. destruct (contains k u) eqn:E.
  - exists k, [], kws. repeat split; try assumption. intros ? [].
  - destruct Hin as [-> | Hin]; [congruence |].
    destruct (IH Hin Hkw) as [kw' [before [after [-> [H1 [H2 H3]]]]]].
    exists kw', (k :: before), after. repeat split; try assumption.
    intros k' [<- | Hk]; [exact E | now apply H3].
Qed.

(** A text in which a forbidden keyword occurs is not blank. *)
Lemma keyword_not_blank (cbql kw : string) :
  In kw FORBIDDEN_KEYWORDS -> occurs_ci kw cbql -> all_space cbql = false.
Proof.
  intros Hin [pre [mid [post [-> Hmid]]]].
  destruct (keywords_start_with_letter _ Hin) as [c [r [-> Hc]]].
  destruct mid as [|d mid]; simpl in Hmid; [discriminate |].
  injection Hmid as Hd _.
  assert (Hw : isword d = true).
  { rewrite <- isword_upper_char, Hd, isword_upper_char. exact Hc. }
  rewrite all_space_app. simpl. rewrite (isword_not_space _ Hw).
  simpl. apply andb_false_r.
Qed.

Lemma not_blank_truthy (s : string) :
  all_space s = false ->
  negb (truthy s) || negb (truthy (strip s)) = false.
Proof.
  intros H. destruct s as [|c s]; [discriminate |]. simpl truthy at 1.
  destruct (strip (String c s)) eqn:E; [| reflexivity].
  apply strip_empty_iff in E. congruence.
Qed.

(** The five tests of [validate_cbql], read off a successful call. *)
Lemma validate_return_inv (cbql v : string) :
  validate_cbql cbql = Return v ->
  all_space cbql = false /\
  first_forbidden FORBIDDEN_KEYWORDS (upper cbql) = None /\
  search SCOPE_PATTERN cbql = true /\
  contains ";" cbql = false /\
  v = strip cbql.
Proof.
  unfold validate_cbql.
  destruct (negb (truthy cbql) || negb (truthy (strip cbql))) eqn:E;
    [discriminate |].
  destruct (first_forbidden FORBIDDEN_KEYWORDS (upper cbql)); [discriminate |].
  destruct (search SCOPE_PATTERN cbql); [| discriminate].
  destruct (contains ";" cbql); [discriminate |]. simpl.
  intros H. injection H as <-. repeat split.
  apply orb_false_iff in E as [_ E]. apply negb_false_iff in E.
  destruct (all_space cbql) eqn:A; [| reflexivity].
  apply strip_empty_iff in A. rewrite A in E. discriminate.
Qed.

Lemma validate_return_intro (cbql : string) :
  all_space cbql = false ->
  first_forbidden FORBIDDEN_KEYWORDS (upper cbql) = None ->
  search SCOPE_PATTERN cbql = true ->
  contains ";" cbql = false ->
  validate_cbql cbql = Return (strip cbql).
Proof.
  intros H1 H2 H3 H4. unfold validate_cbql.
  now rewrite (not_blank_truthy _ H1), H2, H3, H4.
Qed.

Lemma lstrip_app_nonspace (pre : string) (c : ascii) (x : string) :
  isspace c = false -> lstrip (pre ++ String c x) = lstrip pre ++ String c x.
Proof.
  intros Hc. induction pre as [|a pre IH]; simpl.
  - now rewrite Hc.
  - destruct (isspace a); [exact IH | reflexivity].
Qed.

Lemma rstrip_app_nonspace (x : string) (d : ascii) (post : string) :
  isspace d = false ->
  rstrip (x ++ String d post) = x ++ String d (rstrip post).
Proof.
  intros Hd. induction x as [|a x IH].
  - simpl append. rewrite rstrip_cons, Hd. reflexivity.
  - change (String a x ++ String d post) with (String a (x ++ String d post)).
    rewrite rstrip_cons, IH, all_space_app. simpl all_space.
    rewrite Hd. simpl. now rewrite !andb_false_r.
Qed.

Lemma last_char_app (prev : option ascii) (a : string) (c : ascii) (b : string) :
  last_char prev (a ++ String c b) = last_char (Some c) b.
Proof.
  revert prev; induction a as [|x a IH]; intros prev; simpl; [reflexivity |].
  apply IH.
Qed.

Lemma last_char_lstrip (pre : string) :
  is_word (last_char None pre) = false ->
  is_word (last_char None (lstrip pre)) = false.
Proof.
  destruct (lstrip_decomp pre) as [ws [E _]].
  destruct (lstrip pre) as [|c t]; [reflexivity |].
  intros H. rewrite E, last_char_app in H. exact H.
Qed.

(** Stripping the text keeps its scope clause. *)
Lemma has_scope_clause_strip (s : string) :
  has_scope_clause s -> has_scope_clause (strip s).
Proof.
  intros [pre [m [post [-> [B H]]]]].
  destruct (scope_clause_first _ H) as [c [r [Em Hc]]].
  destruct (scope_clause_last _ H) as [m' [d [Em' Hd]]].
  exists (lstrip pre), m, (rstrip post). repeat split.
  - unfold strip. rewrite Em at 1. simpl append.
    rewrite lstrip_app_nonspace by now apply isword_not_space.
    change (String c (r ++ post)) with (String c r ++ post).
    rewrite <- Em, Em', <- !append_assoc, append_assoc. simpl append.
    rewrite rstrip_app_nonspace by exact Hd.
    now rewrite !append_assoc.
  - now apply last_char_lstrip.
  - exact H.
Qed.

End ValidatorFacts.

Module ValidatorClaims.

Import Py Re Spec PyFacts ReFacts ScopeFacts ValidatorFacts CbqlValidator.

(** The trimmed text is determined by the conditions of [is_trim]. *)
Lemma is_trim_unique (s r : string) : is_trim s r -> r = strip s.
Proof.
  intros [pre [post [-> [Hpre [Hpost [Hs He]]]]]]. unfold strip.
  assert (L : forall x, lstrip (pre ++ x) = lstrip x).
  { intros x. induction pre as [|a pre IH]; simpl; [reflexivity |].
    simpl in Hpre. apply andb_true_iff in Hpre as [Ha Hpre].
    rewrite Ha. now apply IH. }
  rewrite L. destruct r as [|c r].
  - simpl append. apply lstrip_all_space in Hpost. now rewrite Hpost.
  - assert (Hc : isspace c = false) by now apply (Hs c r).
    change (String c r ++ post) with ("" ++ String c (r ++ post)).
    rewrite lstrip_app_nonspace by exact Hc. simpl append.
    change (String c (r ++ post)) with (String c r ++ post).
    assert (Hlast : exists r' d, String c r = r' ++ String d "").
    { clear. revert c. induction r as [|x r IH]; intros c.
      - now exists "", c.
      - destruct (IH x) as [r' [d E]]. exists (String c r'), d.
        simpl. now rewrite <- E. }
    destruct Hlast as [r' [d E]]. rewrite E.
    assert (Hd : isspace d = false) by now apply (He r' d).
    rewrite append_assoc. simpl append.
    rewrite rstrip_app_nonspace by exact Hd.
    apply rstrip_all_space in Hpost. now rewrite Hpost.
Qed.

(** C7.  A query that is not empty and not made of whitespace only, that
    contains a scope clause ([tracker =], [tracker IN] or [project =] in any
    case, with the whitespace the pattern tolerates, at the start of a word
    as [SCOPE_PATTERN] asks), in which none of the forbidden keywords occurs
    in any case, and which holds no semicolon, is accepted: [validate_cbql]
    returns the query without its leading and trailing whitespace, and
    changes nothing else. *)
Theorem validate_cbql_accepts_scoped_query (cbql : string) :
  cbql <> "" ->
  all_space cbql = false ->
  has_scope_clause cbql ->
  (forall kw, In kw FORBIDDEN_KEYWORDS -> ~ occurs_ci kw cbql) ->
  ~ occurs ";" cbql ->
  validate_cbql cbql = Return (strip cbql) /\ is_trim cbql (strip cbql).
Proof.
  intros _ Hblank Hscope Hkw Hsemi. split; [| apply strip_is_trim].
  apply validate_return_intro.
  - exact Hblank.
  - apply first_forbidden_none. intros kw Hin.
    destruct (contains kw (upper cbql)) eqn:E; [| reflexivity].
    exfalso. apply (Hkw kw Hin).
    now apply contains_upper_iff; [apply keywords_upper |].
  - now apply search_scope_iff.
  - destruct (contains ";" cbql) eqn:E; [| reflexivity].
    exfalso. apply Hsemi. now apply contains_iff.
Qed.

Lemma validate_cbql_accepts_scoped_query_witness :
  validate_cbql "  tracker = 'Bugs' AND status = 'Open' " =
    Return "tracker = 'Bugs' AND status = 'Open'" /\
  is_trim "  tracker = 'Bugs' AND status = 'Open' "
    "tracker = 'Bugs' AND status = 'Open'".
Proof.
  apply (validate_cbql_accepts_scoped_query
           "  tracker = 'Bugs' AND status = 'Open' ").
  - discriminate.
  - reflexivity.
  - apply search_scope_iff. vm_compute. reflexivity.
  - intros kw Hin Hocc.
    apply (contains_upper_iff kw _ (keywords_upper kw Hin)) in Hocc.
    simpl in Hin.
    destruct Hin as [<- | [<- | [<- | [<- | [<- | []]]]]];
      vm_compute in Hocc; discriminate.
  - intros Hocc. apply contains_iff in Hocc. vm_compute in Hocc. discriminate.
Defined.

(** C8.  When one of SELECT, UPDATE, DELETE, INSERT, JOIN occurs in a text
    in any case, [validate_cbql] raises the error whose message names a
    forbidden keyword that occurs in the text, whatever else the text
    holds: the first such keyword in the order of [FORBIDDEN_KEYWORDS],
    which is the given one whenever no other forbidden keyword occurs. *)
Theorem validate_cbql_rejects_forbidden_keyword (cbql kw : string) :
  In kw FORBIDDEN_KEYWORDS ->
  occurs_ci kw cbql ->
  exists kw' before after,
    FORBIDDEN_KEYWORDS = (before ++ kw' :: after)%list /\
    occurs_ci kw' cbql /\
    (forall k, In k before -> ~ occurs_ci k cbql) /\
    validate_cbql cbql = Raise (ValueError (forbidden_message kw')) /\
    occurs kw' (forbidden_message kw') /\
    ((forall k, In k FORBIDDEN_KEYWORDS -> occurs_ci k cbql -> k = kw) ->
     kw' = kw).
Proof.
  intros Hin Hocc.
  assert (Hc : contains kw (upper cbql) = true)
    by now apply contains_upper_iff; [apply keywords_upper |].
  destruct (first_forbidden_some _ _ _ Hin Hc)
    as [kw' [before [after [E [Hfirst [Hc' Hbefore]]]]]].
  assert (Hin' : In kw' FORBIDDEN_KEYWORDS).
  { rewrite E. apply in_or_app. right. now left. }
  assert (Hocc' : occurs_ci kw' cbql)
    by now apply (contains_upper_iff kw' cbql (keywords_upper kw' Hin')).
  exists kw', before, after. repeat split.
  - exact E.
  - exact Hocc'.
  - intros k Hk Hko.
    assert (Hink : In k FORBIDDEN_KEYWORDS).
    { rewrite E. apply in_or_app. now left. }
    apply (contains_upper_iff k cbql (keywords_upper k Hink)) in Hko.
    rewrite (Hbefore k Hk) in Hko. discriminate.
  - unfold validate_cbql.
    rewrite (not_blank_truthy _ (keyword_not_blank _ _ Hin Hocc)).
    now rewrite Hfirst.
  - exists "Invalid CBQL: '", "' is not supported. CBQL is not SQL.".
    reflexivity.
  - intros Honly. now apply Honly.
Qed.

Lemma validate_cbql_rejects_forbidden_keyword_witness :
  exists kw' before after,
    FORBIDDEN_KEYWORDS = (before ++ kw' :: after)%list /\
    occurs_ci kw' "tracker = 1 Join x" /\
    (forall k, In k before -> ~ occurs_ci k "tracker = 1 Join x") /\
    validate_cbql "tracker = 1 Join x" =
      Raise (ValueError (forbidden_message kw')) /\
    occurs kw' (forbidden_message kw') /\
    ((forall k, In k FORBIDDEN_KEYWORDS ->
                occurs_ci k "tracker = 1 Join x" -> k = "JOIN") ->
     kw' = "JOIN").
Proof.
  apply (validate_cbql_rejects_forbidden_keyword "tracker = 1 Join x" "JOIN").
  - simpl. tauto.
  - exists "tracker = 1 ", "Join", " x". split; reflexivity.
Defined.

(** C9.  [validate_cbql] is idempotent: a query it returned is accepted
    again and returned unchanged. *)
Theorem validate_cbql_idempotent (q q' : string) :
  validate_cbql q = Return q' -> validate_cbql q' = Return q'.
Proof.
  intros H. apply validate_return_inv in H as [Hb [Hf [Hs [Hsemi ->]]]].
  destruct (strip_is_trim q) as [pre [post [E _]]].
  rewrite <- (strip_idem q) at 2. apply validate_return_intro.
  - destruct (all_space (strip q)) eqn:A; [| reflexivity].
    apply strip_empty_iff in A. rewrite strip_idem in A.
    apply strip_empty_iff in A. congruence.
  - apply first_forbidden_none. intros kw Hin.
    destruct (contains kw (upper (strip q))) eqn:C; [| reflexivity].
    rewrite first_forbidden_none in Hf. rewrite <- (Hf kw Hin).
    symmetry. apply contains_iff. rewrite E, !upper_app.
    apply occurs_inside. now apply contains_iff.
  - apply search_scope_iff, has_scope_clause_strip. now apply search_scope_iff.
  - destruct (contains ";" (strip q)) eqn:C; [| reflexivity].
    rewrite <- Hsemi. symmetry. apply contains_iff. rewrite E.
    apply occurs_inside. now apply contains_iff.
Qed.

Lemma validate_cbql_idempotent_witness :
  validate_cbql "project = 'X'" = Return "project = 'X'".
Proof.
  apply (validate_cbql_idempotent "  project = 'X'  " "project = 'X'").
  vm_compute. reflexivity.
Defined.

(** The word boundary of [SCOPE_PATTERN] at work: the text [tracker =]
    inside a longer word is no scope clause. *)
Example scope_inside_word_rejected :
  validate_cbql "xtracker = 1" =
  Raise (ValueError "Invalid CBQL: tracker or project scope is required.").
Proof. vm_compute. reflexivity. Qed.

Example validate_empty :
  validate_cbql "" = Raise (ValueError "CBQL cannot be empty") /\
  validate_cbql "   " = Raise (ValueError "CBQL cannot be empty").
Proof. split; reflexivity. Qed.

Example validate_two_statements :
  validate_cbql "project = 'X'; project = 'Y'" =
  Raise (ValueError "Multiple CBQL statements are not allowed.").
Proof. vm_compute. reflexivity. Qed.

End ValidatorClaims.

(** ** The pagination loop of [query_items] *)

Module LoopFacts.

Import Py CodebeamerClient Main Stub.

Lemma chars_length (s : string) : List.length (Json.chars s) = String.length s.
Proof. induction s as [|c s IH]; simpl; [reflexivity | now rewrite IH]. Qed.

(** [len(items)] is the number of elements [extend] appends. *)
Lemma len_of_iter (v : Json.value) (elems : list Json.value) :
  Json.iter v = Return elems -> Json.len v = Return (List.length elems).
Proof.
  destruct v; simpl; intros H; try discriminate; injection H as <-.
  - now rewrite chars_length.
  - reflexivity.
  - now rewrite length_map.
Qed.

Section Loop.

Variable client : call -> outcome Json.value.
Variable access_token cbql : string.
Variable page_size : option Z.

#[local] Abbreviation loop_body := (loop_body client access_token cbql page_size).
#[local] Abbreviation while_true := (while_true client access_token cbql page_size).
#[local] Abbreviation query_items := (query_items client access_token cbql page_size).
#[local] Abbreviation returns_page := (returns_page client access_token cbql page_size).
#[local] Abbreviation serves := (serves client access_token cbql page_size).
#[local] Abbreviation the_call := (fun p => query_call access_token cbql p page_size).
#[local] Abbreviation page_calls := (page_calls access_token cbql page_size).
#[local] Abbreviation advance := (advance access_token cbql page_size).

#[local] Abbreviation fetched := (Stub.fetched access_token cbql page_size).

(** One turn of the loop on a page that arrives. *)
Lemma loop_body_page (st : state) (elems : list Json.value) :
  returns_page (page st) elems ->
  loop_body st =
  match page_size with
  | None => Stop (Raise TypeError) (fetched st elems)
  | Some size =>
      if (Z.of_nat (List.length elems) <? size)%Z
      then Stop (Return (mkResult (List.length (all_items st ++ elems))
                           (all_items st ++ elems))) (fetched st elems)
      else Next (turn_page (fetched st elems))
  end.
Proof.
  intros [result [items [Hc [Hget Hiter]]]]. unfold Main.loop_body.
  rewrite Hc, Hget, Hiter, (len_of_iter _ _ Hiter). reflexivity.
Qed.

(** One turn of the loop on a full page: the loop goes on. *)
Lemma loop_body_full (st : state) (elems : list Json.value) :
  returns_page (page st) elems ->
  is_full page_size elems ->
  loop_body st = Next (turn_page (fetched st elems)).
Proof.
  intros Hp Hfull. rewrite (loop_body_page _ _ Hp). unfold is_full in Hfull.
  destruct page_size as [size |]; [| contradiction].
  now apply Z.ltb_ge in Hfull as ->.
Qed.

(** One turn of the loop on a call that raises. *)
Lemma loop_body_raise (st : state) (e : exn) :
  client (the_call (page st)) = Raise e ->
  loop_body st =
  Stop (Raise e)
    (mkState (page st) (all_items st) (streamed st)
       (calls st ++ [the_call (page st)])).
Proof. intros H. unfold Main.loop_body. now rewrite H. Qed.

(** The loop returns only from a page shorter than a page size. *)
Lemma loop_body_return (st st' : state) (r : query_result) :
  loop_body st = Stop (Return r) st' ->
  exists size n, page_size = Some size /\ (Z.of_nat n < size)%Z.
Proof.
  unfold Main.loop_body.
  destruct (client _) as [result |]; [| discriminate].
  destruct (Json.get _ _ _) as [items |]; [| discriminate].
  destruct (Json.iter items) as [elems |]; [| discriminate].
  destruct (Json.len items) as [n |]; [| discriminate].
  destruct page_size as [size |]; [| discriminate].
  destruct (Z.of_nat n <? size)%Z eqn:E; [| discriminate].
  intros _. exists size, n. split; [reflexivity | now apply Z.ltb_lt].
Qed.

(** A turn that goes on has asked for the next page. *)
Lemma loop_body_next (st st' : state) :
  loop_body st = Next st' -> page st' = (page st + 1)%Z.
Proof.
  unfold Main.loop_body.
  destruct (client _) as [result |]; [| discriminate].
  destruct (Json.get _ _ _) as [items |]; [| discriminate].
  destruct (Json.iter items) as [elems |]; [| discriminate].
  destruct (Json.len items) as [n |]; [| discriminate].
  destruct page_size as [size |]; [| discriminate].
  destruct (Z.of_nat n <? size)%Z; [discriminate |].
  intros H. injection H as <-. reflexivity.
Qed.

Lemma advance_nil (st : state) : advance st [] = st.
Proof.
  destruct st as [p a s c]. unfold Stub.advance. simpl.
  now rewrite Z.add_0_r, !app_nil_r.
Qed.

Lemma advance_cons (st : state) (elems : list Json.value)
    (rest : list (list Json.value)) :
  advance st (elems :: rest) = advance (turn_page (fetched st elems)) rest.
Proof.
  unfold Stub.advance, turn_page, Stub.fetched.
  cbn [page all_items streamed calls].
  cbn [List.length List.concat progress_events Stub.page_calls].
  rewrite <- !app_assoc. cbn [app]. f_equal. lia.
Qed.

(** Full pages are fetched one after the other, a turn each. *)
Lemma while_true_full (full : list (list Json.value)) :
  forall (st : state) (fuel : nat),
    serves (page st) full ->
    Forall (is_full page_size) full ->
    while_true (List.length full + fuel) st = while_true fuel (advance st full).
Proof.
  induction full as [|elems rest IH]; intros st fuel Hs Hf.
  - now rewrite advance_nil.
  - destruct Hs as [Hp Hs]. inversion Hf as [| ? ? Hfull Hrest]; subst.
    cbn [List.length Nat.add Main.while_true].
    rewrite (loop_body_full _ _ Hp Hfull), advance_cons. now apply IH.
Qed.

(** More fuel does not change the result of a loop that has stopped. *)
Lemma while_true_more_fuel (fuel fuel' : nat) (st : state)
    (r : outcome query_result * state) :
  while_true fuel st = Some r -> fuel <= fuel' -> while_true fuel' st = Some r.
Proof.
  revert fuel' st; induction fuel as [|fuel IH]; intros fuel' st H Hle;
    [discriminate |].
  destruct fuel' as [|fuel']; [lia |]. simpl in *.
  destruct (loop_body st); [| exact H]. apply IH; [exact H | lia].
Qed.

(** The loop never returns a result unless the page size is positive. *)
Lemma while_true_return (fuel : nat) (st st' : state) (r : query_result) :
  while_true fuel st = Some (Return r, st') ->
  exists size, page_size = Some size /\ (0 < size)%Z.
Proof.
  revert st; induction fuel as [|fuel IH]; intros st; simpl; [discriminate |].
  destruct (loop_body st) as [st1 | o st1] eqn:E; [apply IH |].
  intros H. injection H as -> ->.
  destruct (loop_body_return _ _ _ E) as [size [n [Hs Hn]]].
  exists size. split; [exact Hs | lia].
Qed.

(** The loop stops at the latest on the first page that is short. *)
Lemma while_true_stops (size : Z) (n : Z) (elems : list Json.value) :
  page_size = Some size ->
  returns_page n elems ->
  (Z.of_nat (List.length elems) < size)%Z ->
  forall (k : nat) (st : state),
    (page st + Z.of_nat k = n)%Z ->
    exists r, while_true (S k) st = Some r.
Proof.
  intros Hsize Hp Hshort. induction k as [|k IH]; intros st Hst.
  - rewrite Z.add_0_r in Hst. subst n. cbn [Main.while_true].
    rewrite (loop_body_page _ _ Hp), Hsize.
    assert ((Z.of_nat (List.length elems) <? size)%Z = true) as ->
      by now apply Z.ltb_lt.
    eauto.
  - cbn [Main.while_true]. destruct (loop_body st) as [st1 | o st1] eqn:E.
    + apply IH. rewrite (loop_body_next _ _ E). lia.
    + eauto.
Qed.

Lemma except_RateLimited_return (o : outcome query_result) (r : query_result) :
  except_RateLimited o = Return r -> o = Return r.
Proof. destruct o as [v | []]; simpl; congruence. Qed.

End Loop.

End LoopFacts.

(** ** Runs of [query_items] *)

Module RunFacts.

Import Py CodebeamerClient Main Stub LoopFacts.

Section Run.

Variable client : call -> outcome Json.value.
Variable access_token cbql : string.
Variable page_size : option Z.

#[local] Abbreviation query_items :=
  (query_items client access_token cbql page_size).
#[local] Abbreviation while_true :=
  (while_true client access_token cbql page_size).
#[local] Abbreviation returns_page :=
  (returns_page client access_token cbql page_size).
#[local] Abbreviation serves := (serves client access_token cbql page_size).
#[local] Abbreviation the_call :=
  (fun p => query_call access_token cbql p page_size).
#[local] Abbreviation page_calls := (page_calls access_token cbql page_size).

Lemma serves_app (p : Z) (a b : list (list Json.value)) :
  serves p (a ++ b) <->
  serves p a /\ serves (p + Z.of_nat (List.length a)) b.
Proof.
  revert p; induction a as [|x a IH]; intros p.
  - simpl. rewrite Z.add_0_r. tauto.
  - cbn [app Stub.serves List.length]. rewrite IH.
    replace (p + 1 + Z.of_nat (List.length a))%Z
      with (p + Z.of_nat (S (List.length a)))%Z by lia.
    tauto.
Qed.

Lemma progress_events_app (p : Z) (a b : list (list Json.value)) :
  progress_events p (a ++ b) =
  (progress_events p a ++ progress_events (p + Z.of_nat (List.length a)) b)%list.
Proof.
  revert p; induction a as [|x a IH]; intros p.
  - simpl. now rewrite Z.add_0_r.
  - cbn [app progress_events List.length]. rewrite IH.
    replace (p + 1 + Z.of_nat (List.length a))%Z
      with (p + Z.of_nat (S (List.length a)))%Z by lia.
    reflexivity.
Qed.

Lemma page_calls_app (p : Z) (n m : nat) :
  page_calls p (n + m) =
  (page_calls p n ++ page_calls (p + Z.of_nat n) m)%list.
Proof.
  revert p; induction n as [|n IH]; intros p.
  - simpl. now rewrite Z.add_0_r.
  - cbn [Nat.add Stub.page_calls app]. rewrite IH.
    replace (p + 1 + Z.of_nat n)%Z with (p + Z.of_nat (S n))%Z by lia.
    reflexivity.
Qed.

(** Full pages followed by a short one: the run stops on the short page
    and returns all the items, in the order of arrival. *)
Lemma run_until_short_page (size : Z) (full : list (list Json.value))
    (last : list Json.value) (fuel : nat) :
  page_size = Some size ->
  serves 1 (full ++ [last]) ->
  Forall (is_full page_size) full ->
  (Z.of_nat (List.length last) < size)%Z ->
  List.length full < fuel ->
  query_items fuel =
  Some (Return (mkResult (List.length (List.concat (full ++ [last])))
                  (List.concat (full ++ [last]))),
        mkState (1 + Z.of_nat (List.length full))
          (List.concat (full ++ [last]))
          (START :: progress_events 1 (full ++ [last]))
          (page_calls 1 (List.length full + 1))).
Proof.
  intros Hsize Hs Hfull Hshort Hfuel.
  apply serves_app in Hs as [Hs [Hlast _]].
  unfold Main.query_items.
  replace fuel with (List.length full + S (fuel - S (List.length full)))
    by lia.
  rewrite (while_true_full _ _ _ _ full) by assumption.
  cbn [Main.while_true].
  rewrite (loop_body_page _ _ _ _ _ last) by exact Hlast.
  rewrite concat_app, progress_events_app, page_calls_app.
  unfold Stub.fetched, advance. cbn [page all_items streamed calls app].
  cbn [List.concat progress_events Stub.page_calls].
  rewrite !app_nil_r, Hsize.
  assert ((Z.of_nat (List.length last) <? size)%Z = true) as ->
    by now apply Z.ltb_lt.
  reflexivity.
Qed.

(** Full pages followed by a call that raises: the run stops there with
    what the handler of [query_items] makes of the exception. *)
Lemma run_until_raise (full : list (list Json.value)) (e : exn) (fuel : nat) :
  serves 1 full ->
  Forall (is_full page_size) full ->
  client (the_call (1 + Z.of_nat (List.length full))%Z) = Raise e ->
  List.length full < fuel ->
  query_items fuel =
  Some (except_RateLimited (Raise e),
        mkState (1 + Z.of_nat (List.length full))
          (List.concat full)
          (START :: progress_events 1 full)
          (page_calls 1 (List.length full + 1))).
Proof.
  intros Hs Hfull He Hfuel. unfold Main.query_items.
  replace fuel with (List.length full + S (fuel - S (List.length full)))
    by lia.
  rewrite (while_true_full _ _ _ _ full) by assumption.
  cbn [Main.while_true].
  rewrite (loop_body_raise _ _ _ _ _ e) by exact He.
  unfold advance. cbn [page all_items streamed calls app].
  now rewrite page_calls_app.
Qed.

(** A run that returns a result had a positive page size. *)
Lemma run_return (fuel : nat) (r : query_result) (st : state) :
  query_items fuel = Some (Return r, st) ->
  exists size, page_size = Some size /\ (0 < size)%Z.
Proof.
  unfold Main.query_items.
  destruct (while_true fuel _) as [[o st'] |] eqn:E; [| discriminate].
  intros H. injection H as Ho ->. apply except_RateLimited_return in Ho.
  subst o. exact (while_true_return _ _ _ _ _ _ _ _ E).
Qed.

(** With no positive page size every page makes the loop go on. *)
Lemma while_true_forever (size : Z) :
  page_size = Some size ->
  (size <= 0)%Z ->
  forall (fuel : nat) (st : state),
    (forall p, (page st <= p)%Z -> exists elems, returns_page p elems) ->
    while_true fuel st = None.
Proof.
  intros Hsize Hneg. induction fuel as [|fuel IH]; intros st Hp;
    [reflexivity |].
  destruct (Hp (page st) (Z.le_refl _)) as [elems He].
  cbn [Main.while_true]. rewrite (loop_body_full _ _ _ _ _ elems).
  - apply IH. intros p Hle. apply Hp. simpl in Hle. lia.
  - exact He.
  - unfold is_full. rewrite Hsize. lia.
Qed.

(** Every call of a run carries the text [cbql] the tool was given. *)
Lemma while_true_calls (fuel : nat) (st st' : state) (o : outcome query_result) :
  while_true fuel st = Some (o, st') ->
  exists p, calls st' = (calls st ++ page_calls (page st) p)%list /\ 0 < p.
Proof.
  revert st; induction fuel as [|fuel IH]; intros st; simpl; [discriminate |].
  destruct (loop_body _ _ _ _ st) as [st1 | o1 st1] eqn:E.
  - intros H. destruct (IH _ H) as [p [Hc Hp]].
    assert (Hst1 : calls st1 = (calls st ++ [the_call (page st)])%list /\
                   page st1 = (page st + 1)%Z).
    { revert E. unfold loop_body.
      destruct (client _); [| discriminate].
      destruct (Json.get _ _ _); [| discriminate].
      destruct (Json.iter _); [| discriminate].
      destruct (Json.len _); [| discriminate].
      destruct page_size; [| discriminate].
      destruct (_ <? _)%Z; [discriminate |].
      intros H'. injection H' as <-. now split. }
    destruct Hst1 as [Hc1 Hp1]. exists (S p). split; [| lia].
    rewrite Hc, Hc1, Hp1, <- app_assoc. reflexivity.
  - intros H. injection H as -> ->. exists 1. split; [| lia].
    revert E. unfold loop_body.
    destruct (client _); [| intros H; now injection H as _ <-].
    destruct (Json.get _ _ _); [| intros H; now injection H as _ <-].
    destruct (Json.iter _); [| intros H; now injection H as _ <-].
    destruct (Json.len _); [| intros H; now injection H as _ <-].
    destruct page_size; [| intros H; now injection H as _ <-].
    destruct (_ <? _)%Z; [| discriminate].
    intros H. now injection H as _ <-.
Qed.

(** A call that raises ends the run with its exception: what the loop has
    when it stops is the exception of any of its calls that raised. *)
Lemma while_true_raise (fuel : nat) (st st' : state) (o : outcome query_result) :
  while_true fuel st = Some (o, st') ->
  exists new,
    calls st' = (calls st ++ new)%list /\
    forall c e, In c new -> client c = Raise e -> o = Raise e.
Proof.
  revert st; induction fuel as [|fuel IH]; intros st; simpl; [discriminate |].
  destruct (loop_body _ _ _ _ st) as [st1 | o1 st1] eqn:E.
  - intros H. destruct (IH _ H) as [new [Hc Hnew]].
    assert (Hst1 : calls st1 = (calls st ++ [the_call (page st)])%list /\
                   exists v, client (the_call (page st)) = Return v).
    { revert E. unfold loop_body.
      destruct (client _) as [v |]; [| discriminate].
      destruct (Json.get _ _ _); [| discriminate].
      destruct (Json.iter _); [| discriminate].
      destruct (Json.len _); [| discriminate].
      destruct page_size; [| discriminate].
      destruct (_ <? _)%Z; [discriminate |].
      intros H'. injection H' as <-. split; [reflexivity | now exists v]. }
    destruct Hst1 as [Hc1 [v Hv]].
    exists (the_call (page st) :: new). split.
    + rewrite Hc, Hc1, <- app_assoc. reflexivity.
    + intros c e [<- | Hin] He; [congruence | now apply (Hnew c e)].
  - intros H. injection H as -> ->. exists [the_call (page st)].
    revert E. unfold loop_body.
    destruct (client _) as [v | e0] eqn:Ec.
    + assert (Hno : forall c e, In c [the_call (page st)] ->
                                client c = Raise e -> o = Raise e).
      { intros c e [<- | []] He. congruence. }
      destruct (Json.get _ _ _);
        [| intros H; injection H as _ <-; now split].
      destruct (Json.iter _); [| intros H; injection H as _ <-; now split].
      destruct (Json.len _); [| intros H; injection H as _ <-; now split].
      destruct page_size; [| intros H; injection H as _ <-; now split].
      destruct (_ <? _)%Z; [| discriminate].
      intros H; injection H as _ <-; now split.
    + intros H. injection H as <- <-. split; [reflexivity |].
      intros c e [<- | []] He. congruence.
Qed.

End Run.

End RunFacts.

Module ExecutorClaims.

Import Py CodebeamerClient Main Stub LoopFacts RunFacts.

(** C2.  A run in which the gateway raises [RateLimited] fails with the
    rate-limit error of [query_items] and returns no result.  (1) Whatever
    call of a finished run raised [RateLimited], the run ended with that
    error; (2) when it is raised on page [n], reached after the [n - 1] full
    pages [full], the run does end so: the items of the pages before were
    accumulated, and are not handed to the caller. *)
Theorem query_items_rate_limit_voids_run
    (client : call -> outcome Json.value) (access_token cbql : string)
    (page_size : option Z) :
  (forall (fuel : nat) (o : outcome query_result) (st : state) (c : call)
          (e : RateLimited),
      query_items client access_token cbql page_size fuel = Some (o, st) ->
      In c (calls st) ->
      client c = Raise (RateLimitedError e) ->
      o = Raise (RuntimeError
                   ("RATE_LIMITED: " ++ str_of_int (retry_after e)))) /\
  (forall (full : list (list Json.value)) (e : RateLimited) (fuel : nat),
      serves client access_token cbql page_size 1 full ->
      Forall (is_full page_size) full ->
      client (query_call access_token cbql (1 + Z.of_nat (List.length full))
                page_size) = Raise (RateLimitedError e) ->
      List.length full < fuel ->
      query_items client access_token cbql page_size fuel =
        Some (Raise (RuntimeError
                       ("RATE_LIMITED: " ++ str_of_int (retry_after e))),
              mkState (1 + Z.of_nat (List.length full))
                (List.concat full)
                (START :: progress_events 1 full)
                (page_calls access_token cbql page_size 1
                   (List.length full + 1))) /\
      forall (r : query_result) (st : state),
        query_items client access_token cbql page_size fuel <>
        Some (Return r, st)).
Proof.
  split.
  - intros fuel o st c e H Hin He. unfold query_items in H.
    destruct (while_true _ _ _ _ fuel _) as [[o' st'] |] eqn:E;
      [| discriminate].
    injection H as <- <-.
    destruct (while_true_raise _ _ _ _ _ _ _ _ E) as [new [Hc Hnew]].
    simpl in Hc. rewrite Hc in Hin.
    now rewrite (Hnew c _ Hin He).
  - intros full e fuel Hs Hfull He Hfuel.
    rewrite (run_until_raise _ _ _ _ full _ fuel Hs Hfull He Hfuel).
    split; [reflexivity | discriminate].
Qed.

Lemma query_items_rate_limit_voids_run_witness :
  query_items
    (scripted [Return (page_body (repeat Json.Null 500));
               Raise (RateLimitedError (mkRateLimited 30))])
    "token" "tracker = 1" (Some 500%Z) 2 =
    Some (Raise (RuntimeError "RATE_LIMITED: 30"),
          mkState 2 (repeat Json.Null 500) [START; PROGRESS 1 500]
            [query_call "token" "tracker = 1" 1 (Some 500%Z);
             query_call "token" "tracker = 1" 2 (Some 500%Z)]) /\
  forall (o : outcome query_result) (st : state),
    query_items
      (scripted [Return (page_body (repeat Json.Null 500));
                 Raise (RateLimitedError (mkRateLimited 30))])
      "token" "tracker = 1" (Some 500%Z) 2 = Some (o, st) ->
    o = Raise (RuntimeError "RATE_LIMITED: 30").
Proof.
  destruct (query_items_rate_limit_voids_run
              (scripted [Return (page_body (repeat Json.Null 500));
                         Raise (RateLimitedError (mkRateLimited 30))])
              "token" "tracker = 1" (Some 500%Z)) as [Hany Hrun].
  assert (Hres : query_items
            (scripted [Return (page_body (repeat Json.Null 500));
                       Raise (RateLimitedError (mkRateLimited 30))])
            "token" "tracker = 1" (Some 500%Z) 2 =
          Some (Raise (RuntimeError "RATE_LIMITED: 30"),
                mkState 2 (repeat Json.Null 500) [START; PROGRESS 1 500]
                  [query_call "token" "tracker = 1" 1 (Some 500%Z);
                   query_call "token" "tracker = 1" 2 (Some 500%Z)])).
  { apply (Hrun [repeat Json.Null 500] (mkRateLimited 30) 2).
    - split; [| exact I].
      exists (page_body (repeat Json.Null 500)),
             (Json.Array (repeat Json.Null 500)).
      repeat split; reflexivity.
    - constructor; [| constructor]. vm_compute. discriminate.
    - reflexivity.
    - simpl. lia. }
  split; [exact Hres |].
  intros o st H.
  apply (Hany 2 o st (query_call "token" "tracker = 1" 2 (Some 500%Z))
           (mkRateLimited 30) H); [| reflexivity].
  rewrite Hres in H. injection H as _ <-. simpl. tauto.
Defined.

(** C3.  Against a remote service whose pages hold 500, 500 and 237 items,
    with a page size of 500, the run makes exactly the three calls for the
    pages 1, 2 and 3 in this order, returns the total count 1237 with the
    items of the three pages one after the other, in their order of arrival
    and unchanged, and streams the events START, PROGRESS(1, 500),
    PROGRESS(2, 500) and PROGRESS(3, 237) in this order. *)
Theorem query_items_three_pages
    (client : call -> outcome Json.value) (access_token cbql : string)
    (p1 p2 p3 : list Json.value) (fuel : nat) :
  List.length p1 = 500 -> List.length p2 = 500 -> List.length p3 = 237 ->
  serves client access_token cbql (Some 500%Z) 1 [p1; p2; p3] ->
  3 <= fuel ->
  query_items client access_token cbql (Some 500%Z) fuel =
  Some (Return (mkResult 1237 (p1 ++ p2 ++ p3)),
        mkState 3 (p1 ++ p2 ++ p3)
          [START; PROGRESS 1 500; PROGRESS 2 500; PROGRESS 3 237]
          [query_call access_token cbql 1 (Some 500%Z);
           query_call access_token cbql 2 (Some 500%Z);
           query_call access_token cbql 3 (Some 500%Z)]).
Proof.
  intros H1 H2 H3 Hs Hfuel.
  rewrite (run_until_short_page _ _ _ _ 500%Z [p1; p2] p3 fuel).
  - cbn [app List.concat progress_events Stub.page_calls List.length Nat.add
           Z.of_nat].
    rewrite !app_nil_r, !length_app, H1, H2, H3. reflexivity.
  - reflexivity.
  - exact Hs.
  - unfold is_full. repeat constructor; lia.
  - lia.
  - simpl. lia.
Qed.

Lemma query_items_three_pages_witness :
  query_items
    (scripted [Return (page_body (repeat (Json.Int 1) 500));
               Return (page_body (repeat (Json.Int 2) 500));
               Return (page_body (repeat (Json.Int 3) 237))])
    "token" "tracker = 1" (Some 500%Z) 3 =
  Some (Return (mkResult 1237
                  (repeat (Json.Int 1) 500 ++ repeat (Json.Int 2) 500 ++
                   repeat (Json.Int 3) 237)),
        mkState 3
          (repeat (Json.Int 1) 500 ++ repeat (Json.Int 2) 500 ++
           repeat (Json.Int 3) 237)
          [START; PROGRESS 1 500; PROGRESS 2 500; PROGRESS 3 237]
          [query_call "token" "tracker = 1" 1 (Some 500%Z);
           query_call "token" "tracker = 1" 2 (Some 500%Z);
           query_call "token" "tracker = 1" 3 (Some 500%Z)]).
Proof.
  apply (query_items_three_pages
           (scripted [Return (page_body (repeat (Json.Int 1) 500));
                      Return (page_body (repeat (Json.Int 2) 500));
                      Return (page_body (repeat (Json.Int 3) 237))])
           "token" "tracker = 1").
  - apply repeat_length.
  - apply repeat_length.
  - apply repeat_length.
  - repeat split; eexists _, (Json.Array _); repeat split; reflexivity.
  - lia.
Defined.

End ExecutorClaims.

Module TerminationClaims.

Import Py CodebeamerClient Main Stub LoopFacts RunFacts.

(** While full pages keep arriving the loop keeps running. *)
Lemma while_true_running
    (client : call -> outcome Json.value) (access_token cbql : string)
    (page_size : option Z) (full : list (list Json.value)) :
  forall (st : state) (fuel : nat),
    serves client access_token cbql page_size (page st) full ->
    Forall (is_full page_size) full ->
    fuel <= List.length full ->
    while_true client access_token cbql page_size fuel st = None.
Proof.
  induction full as [|elems rest IH]; intros st fuel Hs Hf Hfuel.
  - simpl in Hfuel. now replace fuel with 0 by lia.
  - destruct fuel as [|fuel]; [reflexivity |].
    destruct Hs as [Hp Hs]. inversion Hf as [| ? ? Hfull Hrest]; subst.
    cbn [while_true]. rewrite (loop_body_full _ _ _ _ _ _ Hp Hfull).
    apply IH; [exact Hs | exact Hrest | simpl in Hfuel; lia].
Qed.

(** C4.  The loop stops exactly on the first page that is strictly shorter
    than the page size.  (1) While the pages are full the loop goes on,
    (2) on the first short page, after [full], it stops and returns what it
    gathered, having asked for that page last; (3) with a page size of 500
    and no item on page 1 the run makes one call and returns the total
    count 0 with no items; (4) whatever the remote service answers, a short
    page [n] makes the run end within [n] turns. *)
Theorem query_items_stops_on_first_short_page
    (client : call -> outcome Json.value) (access_token cbql : string)
    (size : Z) :
  (forall (full : list (list Json.value)) (fuel : nat),
      serves client access_token cbql (Some size) 1 full ->
      Forall (is_full (Some size)) full ->
      fuel <= List.length full ->
      query_items client access_token cbql (Some size) fuel = None) /\
  (forall (full : list (list Json.value)) (last : list Json.value)
          (fuel : nat),
      serves client access_token cbql (Some size) 1 (full ++ [last]) ->
      Forall (is_full (Some size)) full ->
      (Z.of_nat (List.length last) < size)%Z ->
      List.length full < fuel ->
      query_items client access_token cbql (Some size) fuel =
      Some (Return (mkResult (List.length (List.concat (full ++ [last])))
                      (List.concat (full ++ [last]))),
            mkState (1 + Z.of_nat (List.length full))
              (List.concat (full ++ [last]))
              (START :: progress_events 1 (full ++ [last]))
              (page_calls access_token cbql (Some size) 1
                 (List.length full + 1)))) /\
  (size = 500%Z ->
   returns_page client access_token cbql (Some size) 1 [] ->
   forall fuel : nat,
     0 < fuel ->
     query_items client access_token cbql (Some size) fuel =
     Some (Return (mkResult 0 []),
           mkState 1 [] [START; PROGRESS 1 0]
             [query_call access_token cbql 1 (Some 500%Z)])) /\
  (forall (n : Z) (elems : list Json.value),
      (1 <= n)%Z ->
      returns_page client access_token cbql (Some size) n elems ->
      (Z.of_nat (List.length elems) < size)%Z ->
      exists r,
        query_items client access_token cbql (Some size) (Z.to_nat n) =
        Some r).
Proof.
  split; [| split; [| split]].
  - intros full fuel Hs Hf Hfuel. unfold query_items.
    now rewrite (while_true_running _ _ _ _ full).
  - intros full last fuel Hs Hf Hshort Hfuel.
    now apply (run_until_short_page _ _ _ _ size).
  - intros -> Hp fuel Hfuel.
    apply (run_until_short_page _ _ _ _ 500%Z [] [] fuel).
    + reflexivity.
    + simpl. now split.
    + constructor.
    + simpl. lia.
    + simpl. lia.
  - intros n elems Hn Hp Hshort.
    destruct (while_true_stops client access_token cbql (Some size) size n
                elems eq_refl Hp Hshort (Z.to_nat n - 1)
                (mkState 1 [] [START] [])) as [[o st] Hr].
    + cbn [page]. lia.
    + exists (except_RateLimited o, st). unfold query_items.
      replace (Z.to_nat n) with (S (Z.to_nat n - 1)) by lia.
      now rewrite Hr.
Qed.

Lemma query_items_stops_on_first_short_page_witness :
  query_items (scripted []) "token" "tracker = 1" (Some 500%Z) 0 = None /\
  query_items (scripted []) "token" "tracker = 1" (Some 500%Z) 1 =
    Some (Return (mkResult 0 []),
          mkState 1 [] [START; PROGRESS 1 0]
            [query_call "token" "tracker = 1" 1 (Some 500%Z)]) /\
  exists r,
    query_items (scripted []) "token" "tracker = 1" (Some 500%Z) 1 = Some r.
Proof.
  destruct (query_items_stops_on_first_short_page
              (scripted []) "token" "tracker = 1" 500%Z)
    as [Hrun [_ [Hzero Hstop]]].
  assert (Hpage : returns_page (scripted []) "token" "tracker = 1"
                    (Some 500%Z) 1 []).
  { exists (page_body []), (Json.Array []). repeat split; reflexivity. }
  split; [| split].
  - apply (Hrun [] 0); [exact I | constructor | simpl; lia].
  - apply Hzero; [reflexivity | exact Hpage | lia].
  - apply (Hstop 1%Z []); [lia | exact Hpage | simpl; lia].
Defined.

(** C10.  A result needs a positive page size, which [query_items] does
    not ask for.  (1) With a page size of zero or less no run returns a
    result, whatever the remote service answers, and (2) against a remote
    service that keeps answering the loop never ends; (3) with the page
    size [None] no run returns a result either, and (4) once the first
    page has arrived the exit test raises [TypeError]. *)
Theorem query_items_needs_positive_page_size
    (client : call -> outcome Json.value) (access_token cbql : string) :
  (forall (size : Z) (fuel : nat) (r : query_result) (st : state),
      (size <= 0)%Z ->
      query_items client access_token cbql (Some size) fuel <>
      Some (Return r, st)) /\
  (forall (size : Z) (fuel : nat),
      (size <= 0)%Z ->
      (forall p, (1 <= p)%Z ->
                 exists elems,
                   returns_page client access_token cbql (Some size) p elems) ->
      query_items client access_token cbql (Some size) fuel = None) /\
  (forall (fuel : nat) (r : query_result) (st : state),
      query_items client access_token cbql None fuel <> Some (Return r, st)) /\
  (forall (elems : list Json.value) (fuel : nat),
      returns_page client access_token cbql None 1 elems ->
      0 < fuel ->
      query_items client access_token cbql None fuel =
      Some (Raise TypeError,
            mkState 1 elems [START; PROGRESS 1 (List.length elems)]
              [query_call access_token cbql 1 None])).
Proof.
  split; [| split; [| split]].
  - intros size fuel r st Hneg H.
    destruct (run_return _ _ _ _ _ _ _ H) as [size' [E Hpos]].
    injection E as <-. lia.
  - intros size fuel Hneg Hp. unfold query_items.
    now rewrite (while_true_forever _ _ _ _ size eq_refl Hneg).
  - intros fuel r st H.
    destruct (run_return _ _ _ _ _ _ _ H) as [size' [E _]]. discriminate.
  - intros elems fuel Hp Hfuel. unfold query_items.
    destruct fuel as [|fuel]; [lia |]. cbn [while_true].
    now rewrite (loop_body_page _ _ _ _ (mkState 1 [] [START] []) elems Hp).
Qed.

Lemma query_items_needs_positive_page_size_witness :
  (forall (r : query_result) (st : state),
      query_items (scripted []) "token" "tracker = 1" (Some 0%Z) 9 <>
      Some (Return r, st)) /\
  query_items (scripted []) "token" "tracker = 1" (Some 0%Z) 9 = None /\
  query_items (scripted []) "token" "tracker = 1" None 1 =
    Some (Raise TypeError,
          mkState 1 [] [START; PROGRESS 1 0]
            [query_call "token" "tracker = 1" 1 None]).
Proof.
  destruct (query_items_needs_positive_page_size
              (scripted []) "token" "tracker = 1")
    as [Hnever [Hloop [_ Hnone]]].
  split; [| split].
  - intros r st. apply Hnever. lia.
  - apply Hloop; [lia |]. intros p Hp. exists [].
    exists (page_body []), (Json.Array []). repeat split.
    unfold scripted. now destruct (Z.to_nat _) as [|[|k]].
  - apply (Hnone [] 1); [| lia].
    exists (page_body []), (Json.Array []). repeat split; reflexivity.
Defined.

End TerminationClaims.

(** ** The gateway and the outer boundary of the tools *)

Module BoundaryClaims.

Import Py CodebeamerClient Main Stub LoopFacts RunFacts CbqlValidator.

(** A run makes at least the call for page 1, and each of its calls is
    built from the text the tool was given. *)
Lemma query_items_calls
    (client : call -> outcome Json.value) (access_token cbql : string)
    (page_size : option Z) (fuel : nat) (o : outcome query_result)
    (st : state) :
  query_items client access_token cbql page_size fuel = Some (o, st) ->
  exists n, calls st = page_calls access_token cbql page_size 1 (S n).
Proof.
  unfold query_items.
  destruct (while_true _ _ _ _ fuel _) as [[o' st'] |] eqn:E; [| discriminate].
  intros H. injection H as _ <-.
  destruct (while_true_calls _ _ _ _ _ _ _ _ E) as [[|n] [Hc Hn]]; [lia |].
  exists n. exact Hc.
Qed.

(** C1.  The text [query_items] is given reaches the gateway as it is,
    without a call of [validate_cbql]: the text [SELECT * FROM items], which
    the validator returns for no input, is the queryString of the call for
    page 1. *)
Theorem query_items_sends_unvalidated_text :
  (forall q, validate_cbql q <> Return "SELECT * FROM items") /\
  query_items (scripted []) "token" "SELECT * FROM items" (Some 500%Z) 1 =
    Some (Return (mkResult 0 []),
          mkState 1 [] [START; PROGRESS 1 0]
            [query_call "token" "SELECT * FROM items" 1 (Some 500%Z)]) /\
  json (query_call "token" "SELECT * FROM items" 1 (Some 500%Z)) =
    Some (Json.Object [("queryString", Json.Str "SELECT * FROM items");
                       ("page", Json.Int 1); ("pageSize", Json.Int 500)]).
Proof.
  split; [| split; reflexivity].
  intros q H.
  apply ValidatorFacts.validate_return_inv in H as [_ [Hf [_ [_ Hv]]]].
  destruct (PyFacts.strip_is_trim q) as [pre [post [E _]]].
  rewrite <- Hv in E.
  rewrite ValidatorFacts.first_forbidden_none in Hf.
  specialize (Hf "SELECT" (or_introl eq_refl)).
  assert (Hc : contains "SELECT" (upper q) = true).
  { apply PyFacts.contains_iff. rewrite E, !PyFacts.upper_app.
    apply ValidatorFacts.occurs_inside.
    exists "", " * FROM ITEMS". reflexivity. }
  congruence.
Qed.

Lemma get_project_details_rate_limited
    (client : call -> outcome Json.value) (access_token : string)
    (project_id : Z) (e : RateLimited) :
  client (mkCall access_token "GET"
            ("/v3/projects/" ++ str_of_int project_id) None) =
    Raise (RateLimitedError e) ->
  get_project_details client access_token project_id =
    Raise (RuntimeError ("RATE_LIMITED:" ++ str_of_int (retry_after e))).
Proof. intros H. unfold get_project_details. now rewrite H. Qed.

Lemma query_items_rate_limited_first_page
    (client : call -> outcome Json.value) (access_token cbql : string)
    (page_size : option Z) (e : RateLimited) (fuel : nat) :
  client (query_call access_token cbql 1 page_size) =
    Raise (RateLimitedError e) ->
  0 < fuel ->
  query_items client access_token cbql page_size fuel =
    Some (Raise (RuntimeError
                   ("RATE_LIMITED: " ++ str_of_int (retry_after e))),
          mkState 1 [] [START] [query_call access_token cbql 1 page_size]).
Proof.
  intros H Hfuel.
  now rewrite (run_until_raise _ _ _ _ [] (RateLimitedError e) fuel).
Qed.

(** C5.  The rate-limit error at the outer boundary of a tool:
    [get_project_details] renders it as [RATE_LIMITED:] followed at once by
    the seconds, [query_items] and [list_projects] put a blank between the
    colon and the seconds. *)
Theorem query_items_rate_limit_message_has_blank :
  query_items (rate_limiting 30) "token" "tracker = 1" (Some 500%Z) 1 =
    Some (Raise (RuntimeError "RATE_LIMITED: 30"),
          mkState 1 [] [START]
            [query_call "token" "tracker = 1" 1 (Some 500%Z)]) /\
  "RATE_LIMITED: 30" <> "RATE_LIMITED:" ++ str_of_int 30 /\
  list_projects (rate_limiting 30) "token" =
    Raise (RuntimeError "RATE_LIMITED: 30") /\
  get_project_details (rate_limiting 30) "token" 7 =
    Raise (RuntimeError ("RATE_LIMITED:" ++ str_of_int 30)).
Proof. repeat split. discriminate. Qed.

Lemma request_429_without_header (transport : call -> response) (c : call) :
  status_code (transport c) = 429%Z ->
  headers_get (headers (transport c)) "Retry-After" = None ->
  request transport c = Raise (RateLimitedError (mkRateLimited 30)).
Proof.
  intros Hs Hh. unfold request, retry_after_of. now rewrite Hs, Hh.
Qed.

Lemma request_429_with_seconds (transport : call -> response) (c : call)
    (text : string) (n : Z) :
  status_code (transport c) = 429%Z ->
  headers_get (headers (transport c)) "Retry-After" = Some text ->
  int_of_str text = Some n ->
  request transport c = Raise (RateLimitedError (mkRateLimited n)).
Proof.
  intros Hs Hh Hn. unfold request, retry_after_of. now rewrite Hs, Hh, Hn.
Qed.

Lemma request_429_unparseable (transport : call -> response) (c : call)
    (text : string) :
  status_code (transport c) = 429%Z ->
  headers_get (headers (transport c)) "Retry-After" = Some text ->
  int_of_str text = None ->
  request transport c = Raise (InvalidLiteral text).
Proof.
  intros Hs Hh Hn. unfold request, retry_after_of. now rewrite Hs, Hh, Hn.
Qed.

(** C6.  A response with status 429 whose Retry-After header is a date, not
    a number of seconds: [request] raises the [ValueError] of [int], not
    [RateLimited] with the default of 30 seconds, and [query_items] lets
    this error through in place of the rate-limit error. *)
Theorem request_429_with_date_raises_value_error :
  let transport := fun _ : call =>
    mkResponse 429 [("Retry-After", "Wed, 21 Oct 2015 07:28:00 GMT")] None in
  (forall c : call,
      request transport c =
      Raise (InvalidLiteral "Wed, 21 Oct 2015 07:28:00 GMT")) /\
  (forall c : call,
      request transport c <> Raise (RateLimitedError (mkRateLimited 30))) /\
  query_items (request transport) "token" "tracker = 1" (Some 500%Z) 1 =
    Some (Raise (InvalidLiteral "Wed, 21 Oct 2015 07:28:00 GMT"),
          mkState 1 [] [START]
            [query_call "token" "tracker = 1" 1 (Some 500%Z)]).
Proof.
  intros transport. repeat split. intros c. discriminate.
Qed.

Example request_429_examples :
  request (fun _ => mkResponse 429 [] None) (mkCall "t" "GET" "/" None) =
    Raise (RateLimitedError (mkRateLimited 30)) /\
  request (fun _ => mkResponse 429 [("retry-after", "120")] None)
    (mkCall "t" "GET" "/" None) =
    Raise (RateLimitedError (mkRateLimited 120)) /\
  request (fun _ => mkResponse 429 [("Retry-After", "soon")] None)
    (mkCall "t" "GET" "/" None) = Raise (InvalidLiteral "soon") /\
  request (fun _ => mkResponse 503 [] None) (mkCall "t" "GET" "/" None) =
    Raise (HTTPStatusError 503) /\
  request (fun _ => mkResponse 200 [] None) (mkCall "t" "GET" "/" None) =
    Raise JSONDecodeError /\
  request (fun _ => mkResponse 200 [] (Some (page_body [])))
    (mkCall "t" "GET" "/" None) = Return (page_body []).
Proof. repeat split. Qed.

End BoundaryClaims.

(** ** More on the validator: the outcomes of [validate_cbql] *)

Module ValidatorOutcomes.

Import Py Re Spec PyFacts ReFacts ScopeFacts ValidatorFacts CbqlValidator.

(** The first test of [validate_cbql] asks whether the text is blank. *)
Lemma blank_test (s : string) :
  negb (truthy s) || negb (truthy (strip s)) = all_space s.
Proof.
  destruct (all_space s) eqn:A; [| now apply not_blank_truthy].
  apply strip_empty_iff in A. rewrite A. simpl. apply orb_true_r.
Qed.

(** [validate_cbql] as a decision list over four tests. *)
Lemma validate_cbql_tests (s : string) :
  validate_cbql s =
  if all_space s then Raise (ValueError "CBQL cannot be empty")
  else match first_forbidden FORBIDDEN_KEYWORDS (upper s) with
       | Some kw => Raise (ValueError (forbidden_message kw))
       | None =>
           if search SCOPE_PATTERN s then
             if contains ";" s then
               Raise (ValueError "Multiple CBQL statements are not allowed.")
             else Return (strip s)
           else
             Raise (ValueError
                      "Invalid CBQL: tracker or project scope is required.")
       end.
Proof.
  unfold validate_cbql. rewrite blank_test.
  destruct (all_space s); [reflexivity |].
  destruct (first_forbidden _ _); [reflexivity |].
  now destruct (search SCOPE_PATTERN s).
Qed.

Lemma no_keyword_iff (s : string) :
  first_forbidden FORBIDDEN_KEYWORDS (upper s) = None <->
  forall kw, In kw FORBIDDEN_KEYWORDS -> ~ occurs_ci kw s.
Proof.
  rewrite first_forbidden_none. split; intros H kw Hin.
  - intros Hocc. apply (contains_upper_iff kw s (keywords_upper kw Hin)) in Hocc.
    rewrite (H kw Hin) in Hocc. discriminate.
  - destruct (contains kw (upper s)) eqn:E; [| reflexivity].
    exfalso. apply (H kw Hin).
    now apply (contains_upper_iff kw s (keywords_upper kw Hin)).
Qed.

Lemma no_semicolon_iff (s : string) :
  contains ";" s = false <-> ~ occurs ";" s.
Proof.
  rewrite <- contains_iff. destruct (contains ";" s); split; congruence.
Qed.

Lemma no_scope_iff (s : string) :
  search SCOPE_PATTERN s = false <-> ~ has_scope_clause s.
Proof.
  rewrite <- search_scope_iff.
  destruct (search SCOPE_PATTERN s); split; congruence.
Qed.

Lemma forbidden_message_shape (kw : string) :
  forbidden_message kw <> "CBQL cannot be empty" /\
  forbidden_message kw <> "Multiple CBQL statements are not allowed." /\
  forbidden_message kw <> "Invalid CBQL: tracker or project scope is required.".
Proof. unfold forbidden_message. simpl. repeat split; discriminate. Qed.

(** X1.  [validate_cbql] raises the error of the empty query exactly on the
    texts that are empty or hold whitespace only. *)
Theorem validate_cbql_empty_iff (s : string) :
  validate_cbql s = Raise (ValueError "CBQL cannot be empty") <->
  all_space s = true.
Proof.
  rewrite validate_cbql_tests. destruct (all_space s); [tauto |].
  split; [| discriminate].
  destruct (first_forbidden _ _) as [kw |].
  - intros H. injection H as Hm.
    now destruct (forbidden_message_shape kw) as [Hne _].
  - destruct (search SCOPE_PATTERN s); [| discriminate].
    destruct (contains ";" s); discriminate.
Qed.

(** X2.  [validate_cbql] returns a value exactly when the text is not
    blank, no forbidden keyword occurs in it in any case, it contains a
    scope clause at the start of a word and holds no semicolon; the value
    is the stripped text. *)
Theorem validate_cbql_return_iff (s v : string) :
  validate_cbql s = Return v <->
  all_space s = false /\
  (forall kw, In kw FORBIDDEN_KEYWORDS -> ~ occurs_ci kw s) /\
  has_scope_clause s /\
  ~ occurs ";" s /\
  v = strip s.
Proof.
  rewrite <- no_keyword_iff, <- search_scope_iff, <- no_semicolon_iff. split.
  - intros H. now apply validate_return_inv in H.
  - intros [H1 [H2 [H3 [H4 ->]]]]. now apply validate_return_intro.
Qed.

(** X3.  What [validate_cbql] returns is itself a clean query: it is not
    blank, has no whitespace at either end, holds no forbidden keyword in
    any case and no semicolon, and contains a scope clause. *)
Theorem validate_cbql_returns_clean_query (s v : string) :
  validate_cbql s = Return v ->
  all_space v = false /\
  no_space_at_start v /\ no_space_at_end v /\
  (forall kw, In kw FORBIDDEN_KEYWORDS -> ~ occurs_ci kw v) /\
  ~ occurs ";" v /\
  has_scope_clause v.
Proof.
  intros H. apply validate_return_inv in H as [Hb [Hf [Hs [Hsemi ->]]]].
  destruct (strip_is_trim s) as [pre [post [E [_ [_ [Hstart Hend]]]]]].
  repeat split; try assumption.
  - destruct (all_space (strip s)) eqn:A; [| reflexivity].
    apply strip_empty_iff in A. rewrite strip_idem in A.
    apply strip_empty_iff in A. congruence.
  - intros kw Hin [a [mid [b [Ev Hmid]]]].
    apply (proj1 (no_keyword_iff s) Hf kw Hin).
    exists (pre ++ a), mid, (b ++ post). split; [| exact Hmid].
    rewrite E at 1. rewrite Ev. now rewrite !append_assoc.
  - intros Hocc. apply (proj1 (no_semicolon_iff s) Hsemi).
    rewrite E. now apply occurs_inside.
  - apply has_scope_clause_strip. now apply search_scope_iff.
Qed.

(** X4.  The error of the missing scope is raised exactly when the text is
    not blank, holds no forbidden keyword and contains no scope clause at
    the start of a word, with or without a semicolon. *)
Theorem validate_cbql_missing_scope_iff (s : string) :
  validate_cbql s =
    Raise (ValueError "Invalid CBQL: tracker or project scope is required.")
  <->
  all_space s = false /\
  (forall kw, In kw FORBIDDEN_KEYWORDS -> ~ occurs_ci kw s) /\
  ~ has_scope_clause s.
Proof.
  rewrite <- no_keyword_iff, <- no_scope_iff, validate_cbql_tests.
  destruct (all_space s).
  - split; [discriminate | intros [H _]; discriminate].
  - destruct (first_forbidden _ _) as [kw |].
    + split; [| intros [_ [H _]]; discriminate].
      intros H. injection H as Hm.
      now destruct (forbidden_message_shape kw) as [_ [_ Hne]].
    + destruct (search SCOPE_PATTERN s).
      * split; [| intros [_ [_ H]]; discriminate].
        destruct (contains ";" s); discriminate.
      * tauto.
Qed.

(** X5.  The error of several statements is raised exactly when the text
    passes the three tests before it and holds a semicolon. *)
Theorem validate_cbql_statements_iff (s : string) :
  validate_cbql s =
    Raise (ValueError "Multiple CBQL statements are not allowed.")
  <->
  all_space s = false /\
  (forall kw, In kw FORBIDDEN_KEYWORDS -> ~ occurs_ci kw s) /\
  has_scope_clause s /\
  occurs ";" s.
Proof.
  rewrite <- no_keyword_iff, <- search_scope_iff, <- contains_iff,
    validate_cbql_tests.
  destruct (all_space s).
  - split; [discriminate | intros [H _]; discriminate].
  - destruct (first_forbidden _ _) as [kw |].
    + split; [| intros [_ [H _]]; discriminate].
      intros H. injection H as Hm.
      now destruct (forbidden_message_shape kw) as [_ [Hne _]].
    + destruct (search SCOPE_PATTERN s).
      * destruct (contains ";" s); [tauto |].
        split; [discriminate | intros [_ [_ [_ H]]]; discriminate].
      * split; [discriminate | intros [_ [_ [H _]]]; discriminate].
Qed.

End ValidatorOutcomes.

(** ** More on the validator: whitespace around the query and the case of
    its letters *)

Module ValidatorInvariance.

Import Py Re Spec Trace PyFacts ReFacts ScopeFacts ValidatorFacts CbqlValidator
  ValidatorOutcomes.

(** A word without whitespace does not start at a whitespace character. *)
Lemma startswith_space (m : string) (d : ascii) (b : string) :
  no_space m = true -> m <> "" -> isspace d = true ->
  startswith m (String d b) = false.
Proof.
  intros Hm Hne Hd. destruct m as [|a m]; [congruence |].
  simpl in Hm. apply andb_true_iff in Hm as [Ha _].
  apply negb_true_iff in Ha. simpl.
  destruct (Ascii.eqb_spec a d) as [-> |]; [congruence | reflexivity].
Qed.

Lemma startswith_pad_r (m x b : string) :
  no_space m = true -> all_space b = true ->
  startswith m (x ++ b) = startswith m x.
Proof.
  revert x; induction m as [|a m IH]; intros x Hm Hb; [reflexivity |].
  destruct x as [|c x].
  - simpl append. destruct b as [|d b]; [reflexivity |]. simpl in Hb.
    apply andb_true_iff in Hb as [Hd _].
    now rewrite (startswith_space (String a m) d b Hm ltac:(discriminate) Hd).
  - simpl in Hm. apply andb_true_iff in Hm as [_ Hm]. simpl.
    now rewrite IH.
Qed.

Lemma contains_blank (m b : string) :
  no_space m = true -> m <> "" -> all_space b = true -> contains m b = false.
Proof.
  intros Hm Hne. induction b as [|d b IH]; intros Hb.
  - destruct m; [congruence | reflexivity].
  - simpl in Hb. apply andb_true_iff in Hb as [Hd Hb]. cbn [contains].
    now rewrite (IH Hb), (startswith_space m d b Hm Hne Hd).
Qed.

Lemma contains_pad_r (m x b : string) :
  no_space m = true -> m <> "" -> all_space b = true ->
  contains m (x ++ b) = contains m x.
Proof.
  intros Hm Hne Hb. induction x as [|c x IH].
  - simpl append. rewrite (contains_blank m b Hm Hne Hb).
    destruct m; [congruence | reflexivity].
  - simpl append. cbn [contains]. rewrite IH.
    change (String c (x ++ b)) with (String c x ++ b).
    now rewrite (startswith_pad_r m (String c x) b Hm Hb).
Qed.

Lemma contains_pad_l (m a x : string) :
  no_space m = true -> m <> "" -> all_space a = true ->
  contains m (a ++ x) = contains m x.
Proof.
  intros Hm Hne. induction a as [|d a IH]; intros Ha; [reflexivity |].
  simpl in Ha. apply andb_true_iff in Ha as [Hd Ha]. simpl append.
  cbn [contains].
  now rewrite (IH Ha), (startswith_space m d _ Hm Hne Hd).
Qed.

Lemma contains_pad (m a x b : string) :
  no_space m = true -> m <> "" -> all_space a = true -> all_space b = true ->
  contains m (a ++ x ++ b) = contains m x.
Proof.
  intros Hm Hne Ha Hb.
  now rewrite (contains_pad_l m a _ Hm Hne Ha), (contains_pad_r m x b Hm Hne Hb).
Qed.

Lemma keywords_no_space (kw : string) :
  In kw FORBIDDEN_KEYWORDS -> no_space kw = true /\ kw <> "".
Proof.
  simpl. intros [<- | [<- | [<- | [<- | [<- | []]]]]];
    (split; [reflexivity | discriminate]).
Qed.

Lemma first_forbidden_ext (kws : list string) (u u' : string) :
  (forall kw, In kw kws -> contains kw u = contains kw u') ->
  first_forbidden kws u = first_forbidden kws u'.
Proof.
  induction kws as [|k kws IH]; intros H; simpl; [reflexivity |].
  rewrite <- (H k (or_introl eq_refl)).
  destruct (contains k u); [reflexivity |].
  apply IH. intros kw Hin. apply H. now right.
Qed.

Lemma lstrip_pad_l (a x : string) :
  all_space a = true -> lstrip (a ++ x) = lstrip x.
Proof.
  induction a as [|c a IH]; simpl; [reflexivity |].
  rewrite andb_true_iff. intros [Hc Ha]. rewrite Hc. now apply IH.
Qed.

Lemma rstrip_pad_r (x b : string) :
  all_space b = true -> rstrip (x ++ b) = rstrip x.
Proof.
  intros Hb. induction x as [|c x IH].
  - simpl append. now apply rstrip_all_space.
  - simpl append. rewrite !rstrip_cons, IH, all_space_app, Hb.
    now rewrite andb_true_r.
Qed.

Lemma lstrip_app_blank (x b : string) :
  all_space b = true ->
  lstrip (x ++ b) = if all_space x then "" else lstrip x ++ b.
Proof.
  intros Hb. induction x as [|c x IH]; simpl.
  - now apply lstrip_all_space.
  - destruct (isspace c); [exact IH | reflexivity].
Qed.

Lemma strip_pad (a x b : string) :
  all_space a = true -> all_space b = true -> strip (a ++ x ++ b) = strip x.
Proof.
  intros Ha Hb. unfold strip.
  rewrite (lstrip_pad_l a _ Ha), (lstrip_app_blank x b Hb).
  destruct (all_space x) eqn:Hx.
  - apply lstrip_all_space in Hx. now rewrite Hx.
  - now apply rstrip_pad_r.
Qed.

Lemma isspace_not_word (c : ascii) : isspace c = true -> isword c = false.
Proof.
  intros H. destruct (isword c) eqn:W; [| reflexivity].
  apply isword_not_space in W. congruence.
Qed.

(** No scope clause starts with whitespace. *)
Lemma scope_not_at_space (c : ascii) (s : string) :
  isspace c = true ->
  match_prefix true (body SCOPE_PATTERN) (String c s) = false.
Proof.
  intros Hc.
  destruct (match_prefix true (body SCOPE_PATTERN) (String c s)) eqn:E;
    [| reflexivity].
  apply match_prefix_iff in E as [m [post [E H]]].
  apply scope_body_iff in H.
  destruct (scope_clause_first _ H) as [d [r [-> Hd]]].
  simpl in E. injection E as -> _.
  apply isword_not_space in Hd. congruence.
Qed.

Lemma search_from_prev (prev prev' : option ascii) (s : string) :
  is_word prev = is_word prev' ->
  search_from SCOPE_PATTERN prev s = search_from SCOPE_PATTERN prev' s.
Proof.
  intros H. destruct s; cbn [search_from]; unfold word_boundary; now rewrite H.
Qed.

Lemma search_from_pad_l (a x : string) (prev : option ascii) :
  all_space a = true -> is_word prev = false ->
  search_from SCOPE_PATTERN prev (a ++ x) = search_from SCOPE_PATTERN None x.
Proof.
  revert prev; induction a as [|c a IH]; intros prev Ha Hp.
  - now apply search_from_prev.
  - simpl in Ha. apply andb_true_iff in Ha as [Hc Ha].
    simpl append. cbn [search_from].
    change (ignorecase SCOPE_PATTERN) with true.
    rewrite (scope_not_at_space c _ Hc), andb_false_r. simpl orb.
    apply IH; [exact Ha |]. simpl. now apply isspace_not_word.
Qed.

(** A word that ends with a character other than whitespace and starts
    [x ++ b], with [b] blank, starts [x]. *)
Lemma prefix_before_blank (m : string) (d : ascii) (x b post : string) :
  isspace d = false -> all_space b = true ->
  x ++ b = (m ++ String d "") ++ post ->
  exists post', x = (m ++ String d "") ++ post'.
Proof.
  intros Hd Hb. revert x; induction m as [|a m IH]; intros x E.
  - destruct x as [|c x]; simpl in E.
    + subst b. simpl in Hb. rewrite Hd in Hb. discriminate.
    + injection E as -> _. now exists x.
  - destruct x as [|c x]; simpl in E.
    + subst b. simpl in Hb. apply andb_true_iff in Hb as [_ Hb].
      rewrite append_assoc, all_space_app in Hb.
      simpl in Hb. rewrite Hd in Hb. simpl in Hb.
      rewrite andb_false_r in Hb. discriminate.
    + injection E as -> E. destruct (IH _ E) as [post' ->].
      now exists post'.
Qed.

Lemma match_prefix_pad_r (x b : string) :
  all_space b = true ->
  match_prefix true (body SCOPE_PATTERN) (x ++ b) =
  match_prefix true (body SCOPE_PATTERN) x.
Proof.
  intros Hb. apply eq_true_iff_eq. rewrite !match_prefix_iff. split.
  - intros [m [post [E H]]]. pose proof H as H'. apply scope_body_iff in H'.
    destruct (scope_clause_last _ H') as [m' [d [-> Hd]]].
    destruct (prefix_before_blank m' d x b post Hd Hb E) as [post' ->].
    now exists (m' ++ String d ""), post'.
  - intros [m [post [-> H]]]. exists m, (post ++ b).
    split; [now rewrite append_assoc | exact H].
Qed.

Lemma search_from_blank (b : string) (prev : option ascii) :
  all_space b = true -> search_from SCOPE_PATTERN prev b = false.
Proof.
  revert prev; induction b as [|c b IH]; intros prev Hb.
  - cbn [search_from]. now rewrite andb_false_r.
  - simpl in Hb. apply andb_true_iff in Hb as [Hc Hb]. cbn [search_from].
    change (ignorecase SCOPE_PATTERN) with true.
    rewrite (scope_not_at_space c _ Hc), andb_false_r. simpl orb.
    now apply IH.
Qed.

Lemma search_from_pad_r (x b : string) (prev : option ascii) :
  all_space b = true ->
  search_from SCOPE_PATTERN prev (x ++ b) = search_from SCOPE_PATTERN prev x.
Proof.
  intros Hb. revert prev; induction x as [|c x IH]; intros prev.
  - simpl append. rewrite (search_from_blank b prev Hb).
    cbn [search_from]. now rewrite andb_false_r.
  - simpl append. cbn [search_from]. rewrite IH.
    change (ignorecase SCOPE_PATTERN) with true.
    change (String c (x ++ b)) with (String c x ++ b).
    rewrite (match_prefix_pad_r (String c x) b Hb). reflexivity.
Qed.

(** X6.  Whitespace around a query does not count: with blank text put
    before and after it, [validate_cbql] gives the same result, value or
    error. *)
Theorem validate_cbql_ignores_outer_whitespace (a s b : string) :
  all_space a = true -> all_space b = true ->
  validate_cbql (a ++ s ++ b) = validate_cbql s.
Proof.
  intros Ha Hb. rewrite !validate_cbql_tests.
  rewrite !all_space_app, Ha, Hb, andb_true_r. simpl andb.
  rewrite (first_forbidden_ext _ (upper (a ++ s ++ b)) (upper s)).
  - unfold search.
    rewrite (search_from_pad_l a (s ++ b) None Ha eq_refl),
      (search_from_pad_r s b None Hb),
      (contains_pad ";" a s b eq_refl ltac:(discriminate) Ha Hb),
      (strip_pad a s b Ha Hb).
    reflexivity.
  - intros kw Hin. destruct (keywords_no_space kw Hin) as [Hn Hne].
    rewrite !upper_app, (upper_all_space a Ha), (upper_all_space b Hb).
    now apply contains_pad.
Qed.

Lemma validate_cbql_ignores_outer_whitespace_witness :
  validate_cbql ("  " ++ "project = 'X'" ++ " ") = validate_cbql "project = 'X'".
Proof.
  apply (validate_cbql_ignores_outer_whitespace "  " "project = 'X'" " ");
    reflexivity.
Defined.

End ValidatorInvariance.

Module ValidatorCase.

Import Py Re Spec Trace PyFacts ReFacts ScopeFacts ValidatorFacts CbqlValidator
  ValidatorOutcomes.

Lemma lstrip_upper (s : string) : lstrip (upper s) = upper (lstrip s).
Proof.
  induction s as [|c s IH]; simpl; [reflexivity |].
  rewrite isspace_upper_char. now destruct (isspace c).
Qed.

Lemma rstrip_upper (s : string) : rstrip (upper s) = upper (rstrip s).
Proof.
  induction s as [|c s IH]; [reflexivity |].
  cbn [upper]. rewrite !rstrip_cons, IH, isspace_upper_char, all_space_upper.
  now destruct (isspace c && all_space s).
Qed.

Lemma strip_upper (s : string) : strip (upper s) = upper (strip s).
Proof. unfold strip. now rewrite lstrip_upper, rstrip_upper. Qed.

Lemma semicolon_upper_char (c : ascii) :
  Ascii.eqb ";" (upper_char c) = Ascii.eqb ";" c.
Proof. destruct c as [[] [] [] [] [] [] [] []]; reflexivity. Qed.

Lemma contains_semicolon_upper (s : string) :
  contains ";" (upper s) = contains ";" s.
Proof.
  induction s as [|c s IH]; [reflexivity |].
  cbn [upper contains startswith]. now rewrite IH, semicolon_upper_char.
Qed.

Lemma chr_matches_upper_char (p a : ascii) :
  chr_matches true p (upper_char a) = chr_matches true p a.
Proof. unfold chr_matches. now rewrite lower_upper_char. Qed.

(** Under [re.IGNORECASE] a letter and its upper case leave the same
    remainder of a pattern. *)
Lemma deriv_upper_char (a : ascii) (r : regex) :
  deriv true (upper_char a) r = deriv true a r.
Proof.
  induction r as [| | p | | r1 IH1 r2 IH2 | r1 IH1 r2 IH2 | r IH];
    cbn [deriv]; try reflexivity.
  - now rewrite chr_matches_upper_char.
  - now rewrite isspace_upper_char.
  - now rewrite IH1, IH2.
  - now rewrite IH1, IH2.
  - now rewrite IH.
Qed.

Lemma match_prefix_upper (r : regex) (s : string) :
  match_prefix true r (upper s) = match_prefix true r s.
Proof.
  revert r; induction s as [|a s IH]; intros r; [reflexivity |].
  cbn [upper match_prefix]. now rewrite deriv_upper_char, IH.
Qed.

Lemma search_from_upper (prev : option ascii) (s : string) :
  search_from SCOPE_PATTERN (option_map upper_char prev) (upper s) =
  search_from SCOPE_PATTERN prev s.
Proof.
  revert prev; induction s as [|a s IH]; intros prev.
  - cbn [upper search_from]. unfold word_boundary.
    destruct prev as [c |]; simpl; [now rewrite isword_upper_char | reflexivity].
  - cbn [upper search_from]. rewrite <- (IH (Some a)).
    change (ignorecase SCOPE_PATTERN) with true.
    change (String (upper_char a) (upper s)) with (upper (String a s)).
    rewrite match_prefix_upper. unfold word_boundary. cbn [upper head is_word].
    rewrite isword_upper_char.
    destruct prev as [c |]; simpl; [now rewrite isword_upper_char | reflexivity].
Qed.

(** X7.  The validator does not look at the case of letters: on the text in
    upper case [validate_cbql] raises the same error, or returns the upper
    case of what it returns for the text itself. *)
Theorem validate_cbql_ignores_case (s : string) :
  validate_cbql (upper s) =
  match validate_cbql s with
  | Return v => Return (upper v)
  | Raise e => Raise e
  end.
Proof.
  rewrite !validate_cbql_tests.
  rewrite all_space_upper, upper_idem, contains_semicolon_upper, strip_upper.
  unfold search. pose proof (search_from_upper None s) as Hs.
  cbn [option_map] in Hs. rewrite Hs.
  destruct (all_space s); [reflexivity |].
  destruct (first_forbidden _ _); [reflexivity |].
  destruct (search_from SCOPE_PATTERN None s); [| reflexivity].
  now destruct (contains ";" s).
Qed.

Lemma validate_cbql_returns_clean_query_witness :
  all_space "tracker IN (1, 2)" = false /\
  no_space_at_start "tracker IN (1, 2)" /\
  no_space_at_end "tracker IN (1, 2)" /\
  (forall kw, In kw FORBIDDEN_KEYWORDS -> ~ occurs_ci kw "tracker IN (1, 2)") /\
  ~ occurs ";" "tracker IN (1, 2)" /\
  has_scope_clause "tracker IN (1, 2)".
Proof.
  apply (validate_cbql_returns_clean_query " tracker IN (1, 2)  ").
  vm_compute. reflexivity.
Defined.

End ValidatorCase.

(** ** More on the gateway: the outcomes of [request] *)

Module GatewayFacts.

Import Py CodebeamerClient Main Stub Trace PyFacts LoopFacts RunFacts.

(** The digits of a decimal number are read back as its value. *)
Lemma int_digits_of_uint (d : Decimal.uint) :
  forall (acc : Z) (after_digit : bool),
    d <> Decimal.Nil \/ after_digit = true ->
    int_digits acc after_digit (NilEmpty.string_of_uint d) =
    Some (horner acc d).
Proof.
  induction d; intros acc b Hd;
    try (cbn [NilEmpty.string_of_uint int_digits horner];
         match goal with
         | |- (if isdigit ?c then _ else _) = _ =>
             change (isdigit c) with true; cbv iota;
             let v := eval vm_compute in (digit_value c) in
             change (digit_value c) with v
         end;
         apply IHd; now right).
  destruct Hd as [Hd | ->]; [congruence | reflexivity].
Qed.

Lemma horner_revapp (d d' : Decimal.uint) :
  Z.of_N (DecimalPos.Unsigned.of_lu (Decimal.revapp d d')) =
  horner (Z.of_N (DecimalPos.Unsigned.of_lu d')) d.
Proof.
  revert d'; induction d; intros d'; cbn [Decimal.revapp horner];
    [reflexivity | ..];
    rewrite IHd; f_equal; cbn [DecimalPos.Unsigned.of_lu]; lia.
Qed.

Lemma horner_of_uint (d : Decimal.uint) : horner 0 d = Z.of_uint d.
Proof.
  unfold Z.of_uint. rewrite DecimalPos.Unsigned.of_uint_alt.
  unfold Decimal.rev. now rewrite horner_revapp.
Qed.

Lemma rstrip_c_keep (c : ascii) (r : string) :
  isspace_c c = false -> rstrip_c r = r -> rstrip_c (String c r) = String c r.
Proof.
  intros Hc Hr. cbn [rstrip_c]. rewrite Hr, Hc. now destruct r.
Qed.

(** [int] finds no whitespace to drop around decimal digits. *)
Lemma strip_c_digits (d : Decimal.uint) :
  rstrip_c (lstrip_c (NilEmpty.string_of_uint d)) = NilEmpty.string_of_uint d.
Proof.
  assert (Hl : lstrip_c (NilEmpty.string_of_uint d) = NilEmpty.string_of_uint d)
    by (destruct d; reflexivity).
  rewrite Hl. clear Hl.
  induction d; cbn [NilEmpty.string_of_uint]; try reflexivity;
    (apply rstrip_c_keep; [reflexivity | exact IHd]).
Qed.

Lemma int_of_digits (d : Decimal.uint) :
  d <> Decimal.Nil ->
  count_digits (NilEmpty.string_of_uint d) <= int_max_str_digits ->
  int_of_str (NilEmpty.string_of_uint d) = Some (Z.of_uint d) /\
  int_of_str (String "-" (NilEmpty.string_of_uint d)) = Some (- Z.of_uint d)%Z.
Proof.
  intros Hd Hn.
  assert (Hl : Nat.ltb int_max_str_digits
                 (count_digits (NilEmpty.string_of_uint d)) = false)
    by now apply Nat.ltb_ge.
  pose proof (strip_c_digits d) as Hstrip.
  assert (Hminus : rstrip_c (lstrip_c (String "-" (NilEmpty.string_of_uint d))) =
                   String "-" (NilEmpty.string_of_uint d)).
  { change (lstrip_c (String "-" (NilEmpty.string_of_uint d)))
      with (String "-" (NilEmpty.string_of_uint d)).
    apply rstrip_c_keep; [reflexivity |].
    rewrite <- Hstrip at 2. f_equal. symmetry.
    destruct d; reflexivity. }
  unfold int_of_str. cbv zeta. split.
  - rewrite Hstrip, Hl.
    rewrite <- horner_of_uint, <- (int_digits_of_uint d 0 false (or_introl Hd)).
    destruct d; reflexivity.
  - rewrite Hminus.
    change (count_digits (String "-" (NilEmpty.string_of_uint d)))
      with (count_digits (NilEmpty.string_of_uint d)).
    rewrite Hl, (int_digits_of_uint d 0 false (or_introl Hd)), horner_of_uint.
    reflexivity.
Qed.

(** [int(str(n))] is [n], as long as [n] has no more digits than [int]
    accepts. *)
Lemma int_of_str_of_int (n : Z) :
  count_digits (str_of_int n) <= int_max_str_digits ->
  int_of_str (str_of_int n) = Some n.
Proof.
  unfold str_of_int. destruct n as [| p | p]; intros Hn.
  - unfold int_of_str. cbv zeta.
    change (rstrip_c (lstrip_c (NilZero.string_of_int (Z.to_int 0))))
      with "0".
    assert (Nat.ltb int_max_str_digits (count_digits "0") = false) as ->
      by (apply Nat.ltb_ge; exact Hn).
    reflexivity.
  - pose proof (DecimalPos.Unsigned.to_uint_nonnil p) as Hp.
    cbn [Z.to_int NilZero.string_of_int] in *.
    assert (E : NilZero.string_of_uint (Pos.to_uint p) =
                NilEmpty.string_of_uint (Pos.to_uint p))
      by (destruct (Pos.to_uint p); [congruence | reflexivity ..]).
    rewrite E in *.
    destruct (int_of_digits (Pos.to_uint p) Hp Hn) as [Hpos _].
    unfold Z.of_uint in Hpos. rewrite DecimalPos.Unsigned.of_to in Hpos.
    exact Hpos.
  - pose proof (DecimalPos.Unsigned.to_uint_nonnil p) as Hp.
    cbn [Z.to_int NilZero.string_of_int] in *.
    assert (E : NilZero.string_of_uint (Pos.to_uint p) =
                NilEmpty.string_of_uint (Pos.to_uint p))
      by (destruct (Pos.to_uint p); [congruence | reflexivity ..]).
    rewrite E in *.
    change (count_digits (String "-" (NilEmpty.string_of_uint (Pos.to_uint p))))
      with (count_digits (NilEmpty.string_of_uint (Pos.to_uint p))) in Hn.
    destruct (int_of_digits (Pos.to_uint p) Hp Hn) as [_ Hneg].
    unfold Z.of_uint in Hneg. rewrite DecimalPos.Unsigned.of_to in Hneg.
    exact Hneg.
Qed.

(** X8.  [request] returns a value exactly when the status of the response
    is between 200 and 299 and its body decodes; the value is the decoded
    body. *)
Theorem request_return_iff (transport : call -> response) (c : call)
    (v : Json.value) :
  request transport c = Return v <->
  is_success (status_code (transport c)) = true /\
  body (transport c) = Some v.
Proof.
  unfold request, raise_for_status, response_json, retry_after_of.
  destruct (status_code (transport c) =? 429)%Z eqn:E.
  - apply Z.eqb_eq in E. rewrite E. split.
    + destruct (headers_get _ _) as [text |]; [| discriminate].
      destruct (int_of_str text); discriminate.
    + intros [H _]. discriminate.
  - destruct (is_success (status_code (transport c))); simpl.
    + destruct (body (transport c)) as [w |]; split.
      * intros H. injection H as ->. now split.
      * intros [_ H]. now injection H as ->.
      * discriminate.
      * intros [_ H]. discriminate.
    + split; [discriminate | intros [H _]; discriminate].
Qed.

(** X9.  [request] raises [RateLimited] exactly when the status is 429 and
    the Retry-After header is absent, with 30 seconds, or holds text that
    [int] reads, with the seconds read. *)
Theorem request_rate_limited_iff (transport : call -> response) (c : call)
    (e : RateLimited) :
  request transport c = Raise (RateLimitedError e) <->
  status_code (transport c) = 429%Z /\
  ((headers_get (headers (transport c)) "Retry-After" = None /\
    retry_after e = 30%Z) \/
   exists text,
     headers_get (headers (transport c)) "Retry-After" = Some text /\
     int_of_str text = Some (retry_after e)).
Proof.
  destruct e as [n]. cbn [retry_after].
  unfold request, raise_for_status, response_json, retry_after_of.
  destruct (status_code (transport c) =? 429)%Z eqn:E.
  - apply Z.eqb_eq in E. rewrite E.
    destruct (headers_get _ _) as [text |]; simpl.
    + destruct (int_of_str text) as [m |] eqn:Hm; simpl; split.
      * intros H. injection H as ->. split; [reflexivity |]. right.
        now exists text.
      * intros [_ [[H _] | [t [Ht Hn]]]]; [discriminate |].
        injection Ht as <-. rewrite Hm in Hn. now injection Hn as ->.
      * discriminate.
      * intros [_ [[H _] | [t [Ht Hn]]]]; [discriminate |].
        injection Ht as <-. congruence.
    + split.
      * intros H. injection H as <-. split; [reflexivity |]. now left.
      * intros [_ [[_ ->] | [t [Ht _]]]]; [reflexivity | discriminate].
  - apply Z.eqb_neq in E. split.
    + destruct (is_success _); simpl; [| discriminate].
      destruct (body (transport c)); discriminate.
    + intros [H _]. contradiction.
Qed.

(** X10.  [request] raises the status error exactly on a status outside
    200..299 other than 429; the body of such a response is not looked
    at. *)
Theorem request_status_error_iff (transport : call -> response) (c : call)
    (status : Z) :
  request transport c = Raise (HTTPStatusError status) <->
  status_code (transport c) = status /\
  status <> 429%Z /\
  is_success status = false.
Proof.
  unfold request, raise_for_status, response_json, retry_after_of.
  destruct (status_code (transport c) =? 429)%Z eqn:E.
  - apply Z.eqb_eq in E. split.
    + destruct (headers_get _ _) as [text |]; [| discriminate].
      destruct (int_of_str text); discriminate.
    + intros [H [Hne _]]. congruence.
  - apply Z.eqb_neq in E.
    destruct (is_success (status_code (transport c))) eqn:S; simpl; split.
    + destruct (body (transport c)); discriminate.
    + intros [<- [_ H]]. congruence.
    + intros H. injection H as <-. now repeat split.
    + intros [<- _]. reflexivity.
Qed.

(** X11.  The seconds of the remote service arrive unchanged: when a
    response with status 429 carries the decimal text of an integer [n] as
    its Retry-After header, and this text has no more digits than [int]
    accepts, [request] raises [RateLimited] with [n], and [query_items],
    called on this gateway, fails with RATE_LIMITED, a blank and the text
    of the header. *)
Theorem retry_after_round_trip (transport : call -> response)
    (access_token cbql : string) (page_size : option Z) (n : Z) (fuel : nat) :
  count_digits (str_of_int n) <= int_max_str_digits ->
  (forall c, status_code (transport c) = 429%Z) ->
  (forall c, headers_get (headers (transport c)) "Retry-After" =
             Some (str_of_int n)) ->
  0 < fuel ->
  (forall c, request transport c = Raise (RateLimitedError (mkRateLimited n)))
  /\
  query_items (request transport) access_token cbql page_size fuel =
    Some (Raise (RuntimeError ("RATE_LIMITED: " ++ str_of_int n)),
          mkState 1 [] [START] [query_call access_token cbql 1 page_size]).
Proof.
  intros Hn Hs Hh Hfuel.
  assert (Hr : forall c, request transport c =
                         Raise (RateLimitedError (mkRateLimited n))).
  { intros c. unfold request, retry_after_of.
    now rewrite Hs, Hh, (int_of_str_of_int n Hn). }
  split; [exact Hr |].
  rewrite (run_until_raise _ _ _ _ [] (RateLimitedError (mkRateLimited n)) fuel);
    try reflexivity; try exact I; try constructor.
  - apply Hr.
  - exact Hfuel.
Qed.

Lemma retry_after_round_trip_witness :
  (forall c,
      request (fun _ => mkResponse 429 [("retry-after", "120")] None) c =
      Raise (RateLimitedError (mkRateLimited 120))) /\
  query_items (request (fun _ => mkResponse 429 [("retry-after", "120")] None))
    "token" "tracker = 1" (Some 500%Z) 1 =
    Some (Raise (RuntimeError "RATE_LIMITED: 120"),
          mkState 1 [] [START]
            [query_call "token" "tracker = 1" 1 (Some 500%Z)]).
Proof.
  apply (retry_after_round_trip
           (fun _ => mkResponse 429 [("retry-after", "120")] None)
           "token" "tracker = 1" (Some 500%Z) 120 1).
  - apply Nat.leb_le. vm_compute. reflexivity.
  - intros c. reflexivity.
  - intros c. reflexivity.
  - lia.
Defined.

End GatewayFacts.

(** ** More on [query_items]: what every finished run looks like *)

Module RunShape.

Import Py CodebeamerClient Main Stub Trace LoopFacts RunFacts.

Lemma fetched_total_app (a b : list event) :
  fetched_total (a ++ b) = fetched_total a + fetched_total b.
Proof.
  induction a as [|[| p n] a IH]; simpl; [reflexivity | exact IH |].
  rewrite IH. lia.
Qed.

Lemma fetched_total_progress (p : Z) (pages : list (list Json.value)) :
  fetched_total (progress_events p pages) = List.length (List.concat pages).
Proof.
  revert p; induction pages as [|elems rest IH]; intros p; simpl;
    [reflexivity |].
  now rewrite IH, length_app.
Qed.

Section Shape.

Variable client : call -> outcome Json.value.
Variable access_token cbql : string.
Variable page_size : option Z.

#[local] Abbreviation loop_body :=
  (loop_body client access_token cbql page_size).
#[local] Abbreviation while_true :=
  (while_true client access_token cbql page_size).
#[local] Abbreviation query_items :=
  (query_items client access_token cbql page_size).
#[local] Abbreviation returns_page :=
  (returns_page client access_token cbql page_size).
#[local] Abbreviation serves := (serves client access_token cbql page_size).
#[local] Abbreviation the_call :=
  (fun p => query_call access_token cbql p page_size).
#[local] Abbreviation page_calls := (page_calls access_token cbql page_size).
#[local] Abbreviation fetched := (Stub.fetched access_token cbql page_size).

(** A turn of the loop either gets a page or stops with an exception, the
    call made and nothing else changed. *)
Lemma loop_body_cases (st : state) :
  (exists elems, returns_page (page st) elems) \/
  (exists e,
      loop_body st =
      Stop (Raise e)
        (mkState (page st) (all_items st) (streamed st)
           (calls st ++ [the_call (page st)]))).
Proof.
  unfold Main.loop_body, Stub.returns_page.
  destruct (client _) as [result | e] eqn:Hc;
    [| right; exists e; reflexivity].
  destruct (Json.get result "items" (Json.Array [])) as [items | e] eqn:Hg;
    [| right; exists e; reflexivity].
  destruct (Json.iter items) as [elems | e] eqn:Hi;
    [| right; exists e; reflexivity].
  left. now exists elems, result, items.
Qed.

(** The three ends of a turn on a page that arrives. *)
Lemma loop_body_page_cases (st : state) (elems : list Json.value) :
  returns_page (page st) elems ->
  (page_size = None /\
   loop_body st = Stop (Raise TypeError) (fetched st elems)) \/
  (exists size,
      page_size = Some size /\
      (Z.of_nat (List.length elems) < size)%Z /\
      loop_body st =
      Stop (Return (mkResult (List.length (all_items st ++ elems))
                      (all_items st ++ elems))) (fetched st elems)) \/
  (is_full page_size elems /\
   loop_body st = Next (turn_page (fetched st elems))).
Proof.
  intros He. rewrite (loop_body_page _ _ _ _ _ _ He). unfold is_full.
  destruct page_size as [size |]; [| now left].
  destruct (Z.of_nat (List.length elems) <? size)%Z eqn:Hlt.
  - right; left. exists size. apply Z.ltb_lt in Hlt. now repeat split.
  - right; right. apply Z.ltb_ge in Hlt. now split.
Qed.

#[local] Abbreviation after_pages :=
  (Trace.after_pages client access_token cbql page_size).

Lemma after_pages_snoc (st : state) (pages : list (list Json.value))
    (elems : list Json.value) :
  after_pages st pages ->
  returns_page (page st) elems ->
  page (fetched st elems) = (1 + Z.of_nat (List.length pages))%Z /\
  all_items (fetched st elems) = List.concat (pages ++ [elems]) /\
  streamed (fetched st elems) = START :: progress_events 1 (pages ++ [elems]) /\
  calls (fetched st elems) = page_calls 1 (List.length (pages ++ [elems])) /\
  serves 1 (pages ++ [elems]).
Proof.
  intros [Hp [Ha [Hs [Hc [Hv _]]]]] He. unfold Stub.fetched.
  cbn [page all_items streamed calls].
  rewrite Ha, Hs, Hc, Hp, concat_app, progress_events_app, length_app,
    page_calls_app.
  cbn [List.concat progress_events Stub.page_calls List.length].
  rewrite app_nil_r. repeat split.
  apply serves_app. split; [exact Hv |]. rewrite <- Hp. now split.
Qed.

(** Every way the loop can end, told from the pages it was served. *)
Lemma while_true_shape (fuel : nat) :
  forall (st : state) (pages : list (list Json.value))
         (o : outcome query_result) (st' : state),
    after_pages st pages ->
    while_true fuel st = Some (o, st') ->
    exists pages',
      serves 1 pages' /\
      all_items st' = List.concat pages' /\
      streamed st' = START :: progress_events 1 pages' /\
      ((calls st' = page_calls 1 (List.length pages') /\
        exists full last,
          pages' = (full ++ [last])%list /\
          Forall (is_full page_size) full /\
          ((page_size = None /\ o = Raise TypeError) \/
           exists size,
             page_size = Some size /\
             (Z.of_nat (List.length last) < size)%Z /\
             o = Return (mkResult (List.length (List.concat pages'))
                           (List.concat pages')))) \/
       (calls st' = page_calls 1 (S (List.length pages')) /\
        Forall (is_full page_size) pages' /\
        exists e, o = Raise e)).
Proof.
  induction fuel as [|fuel IH]; intros st pages o st' Hinv Hrun;
    [discriminate |].
  cbn [Main.while_true] in Hrun.
  destruct (loop_body_cases st) as [[elems He] | [e Hstop]].
  - destruct (after_pages_snoc st pages elems Hinv He)
      as [Hp [Ha [Hs [Hc Hv]]]].
    destruct Hinv as [_ [_ [_ [_ [_ Hfull]]]]].
    destruct (loop_body_page_cases st elems He)
      as [[Hnone Hb] | [[size [Hsize [Hlt Hb]]] | [Hf Hb]]];
      rewrite Hb in Hrun.
    + injection Hrun as <- <-. exists (pages ++ [elems])%list.
      repeat split; try assumption. left. split; [exact Hc |].
      exists pages, elems. repeat split; try assumption. now left.
    + injection Hrun as <- <-. exists (pages ++ [elems])%list.
      repeat split; try assumption. left. split; [exact Hc |].
      exists pages, elems. repeat split; try assumption. right.
      exists size. repeat split; try assumption.
      unfold Stub.fetched in Ha. cbn [all_items] in Ha. now rewrite Ha.
    + apply (IH _ (pages ++ [elems])%list _ _) in Hrun; [exact Hrun |].
      unfold Trace.after_pages, turn_page.
      cbn [page all_items streamed calls].
      rewrite Hp, length_app. cbn [List.length].
      repeat split; try assumption.
      * lia.
      * now rewrite Hc, length_app.
      * apply Forall_app. split; [exact Hfull |]. now repeat constructor.
  - rewrite Hstop in Hrun. injection Hrun as <- <-.
    destruct Hinv as [Hp [Ha [Hs [Hc [Hv Hfull]]]]].
    exists pages. cbn [all_items streamed calls].
    repeat split; try assumption. right. repeat split; try assumption.
    + rewrite Hc, Hp.
      replace (S (List.length pages)) with (List.length pages + 1) by lia.
      now rewrite page_calls_app.
    + now exists e.
Qed.

Lemma after_pages_start : after_pages (mkState 1 [] [START] []) [].
Proof. unfold Trace.after_pages. simpl. repeat split. constructor. Qed.

End Shape.

End RunShape.

Module RunProperties.

Import Py CodebeamerClient Main Stub Trace LoopFacts RunFacts RunShape.

(** X12.  What [query_items] returns is what the remote service served: a
    run that returns a result had a positive page size, was served full
    pages and then a short one, and returns their items one page after the
    other with their number as the total count, after one call and one
    PROGRESS event for each of these pages. *)
Theorem query_items_result_is_served_pages
    (client : call -> outcome Json.value) (access_token cbql : string)
    (page_size : option Z) (fuel : nat) (r : query_result) (st : state) :
  query_items client access_token cbql page_size fuel = Some (Return r, st) ->
  exists size full last,
    page_size = Some size /\
    (0 < size)%Z /\
    serves client access_token cbql page_size 1 (full ++ [last]) /\
    Forall (is_full page_size) full /\
    (Z.of_nat (List.length last) < size)%Z /\
    items r = List.concat (full ++ [last]) /\
    totalCount r = List.length (items r) /\
    all_items st = items r /\
    streamed st = START :: progress_events 1 (full ++ [last]) /\
    calls st = page_calls access_token cbql page_size 1 (List.length full + 1).
Proof.
  unfold query_items.
  destruct (while_true _ _ _ _ fuel _) as [[o st'] |] eqn:E; [| discriminate].
  intros H. injection H as Ho ->. apply except_RateLimited_return in Ho.
  subst o.
  destruct (while_true_shape _ _ _ _ _ _ _ _ _
              (after_pages_start client access_token cbql page_size) E)
    as [pages [Hv [Ha [Hs [[Hc [full [last [-> [Hfull Ho]]]]]
                          | [_ [_ [e He]]]]]]]]; [| discriminate].
  destruct Ho as [[_ Ho] | [size [Hsize [Hlt Ho]]]]; [discriminate |].
  injection Ho as ->. exists size, full, last. cbn [items totalCount].
  repeat split; try assumption.
  - lia.
  - rewrite Hc, length_app. reflexivity.
Qed.

Lemma query_items_result_is_served_pages_witness :
  exists size full last,
    Some 2%Z = Some size /\
    (0 < size)%Z /\
    serves (scripted [Return (page_body [Json.Int 1; Json.Int 2]);
                      Return (page_body [Json.Int 3])])
      "token" "tracker = 1" (Some 2%Z) 1 (full ++ [last]) /\
    Forall (is_full (Some 2%Z)) full /\
    (Z.of_nat (List.length last) < size)%Z /\
    [Json.Int 1; Json.Int 2; Json.Int 3] = List.concat (full ++ [last]) /\
    3 = List.length [Json.Int 1; Json.Int 2; Json.Int 3] /\
    [Json.Int 1; Json.Int 2; Json.Int 3] = [Json.Int 1; Json.Int 2; Json.Int 3] /\
    [START; PROGRESS 1 2; PROGRESS 2 1] =
      START :: progress_events 1 (full ++ [last]) /\
    [query_call "token" "tracker = 1" 1 (Some 2%Z);
     query_call "token" "tracker = 1" 2 (Some 2%Z)] =
      page_calls "token" "tracker = 1" (Some 2%Z) 1 (List.length full + 1).
Proof.
  apply (query_items_result_is_served_pages
           (scripted [Return (page_body [Json.Int 1; Json.Int 2]);
                      Return (page_body [Json.Int 3])])
           "token" "tracker = 1" (Some 2%Z) 2
           (mkResult 3 [Json.Int 1; Json.Int 2; Json.Int 3])
           (mkState 2 [Json.Int 1; Json.Int 2; Json.Int 3]
              [START; PROGRESS 1 2; PROGRESS 2 1]
              [query_call "token" "tracker = 1" 1 (Some 2%Z);
               query_call "token" "tracker = 1" 2 (Some 2%Z)])).
  reflexivity.
Defined.

(** X13.  The shape of every finished run, whatever its end: the items
    gathered are those of the pages served, in order; START was streamed
    first, then one PROGRESS event for each of these pages, numbered from 1
    without a gap and carrying the size of the page; and the calls made are
    those for the pages 1, 2, ... in this order, all with the same token,
    text and page size: one for each page served, and at most one more,
    the call that failed. *)
Theorem query_items_run_shape
    (client : call -> outcome Json.value) (access_token cbql : string)
    (page_size : option Z) (fuel : nat) (o : outcome query_result)
    (st : state) :
  query_items client access_token cbql page_size fuel = Some (o, st) ->
  exists pages,
    serves client access_token cbql page_size 1 pages /\
    all_items st = List.concat pages /\
    streamed st = START :: progress_events 1 pages /\
    (calls st = page_calls access_token cbql page_size 1 (List.length pages) \/
     (calls st =
        page_calls access_token cbql page_size 1 (S (List.length pages)) /\
      exists e, o = Raise e)).
Proof.
  unfold query_items.
  destruct (while_true _ _ _ _ fuel _) as [[o' st'] |] eqn:E; [| discriminate].
  intros H. injection H as <- <-.
  destruct (while_true_shape _ _ _ _ _ _ _ _ _
              (after_pages_start client access_token cbql page_size) E)
    as [pages [Hv [Ha [Hs [[Hc _] | [Hc [_ [e ->]]]]]]]];
    exists pages; repeat split; try assumption.
  - now left.
  - right. split; [exact Hc |]. destruct e; simpl; eauto.
Qed.

Lemma query_items_run_shape_witness :
  exists pages,
    serves (scripted [Return (page_body [Json.Int 1]);
                      Raise (HTTPStatusError 500)])
      "token" "tracker = 1" (Some 1%Z) 1 pages /\
    [Json.Int 1] = List.concat pages /\
    [START; PROGRESS 1 1] = START :: progress_events 1 pages /\
    ([query_call "token" "tracker = 1" 1 (Some 1%Z);
      query_call "token" "tracker = 1" 2 (Some 1%Z)] =
       page_calls "token" "tracker = 1" (Some 1%Z) 1 (List.length pages) \/
     ([query_call "token" "tracker = 1" 1 (Some 1%Z);
       query_call "token" "tracker = 1" 2 (Some 1%Z)] =
        page_calls "token" "tracker = 1" (Some 1%Z) 1 (S (List.length pages)) /\
      exists e, Raise (A := query_result) (HTTPStatusError 500) = Raise e)).
Proof.
  apply (query_items_run_shape
           (scripted [Return (page_body [Json.Int 1]);
                      Raise (HTTPStatusError 500)])
           "token" "tracker = 1" (Some 1%Z) 2
           (Raise (HTTPStatusError 500))
           (mkState 2 [Json.Int 1] [START; PROGRESS 1 1]
              [query_call "token" "tracker = 1" 1 (Some 1%Z);
               query_call "token" "tracker = 1" 2 (Some 1%Z)])).
  reflexivity.
Defined.

(** X14.  The counts agree: in every finished run the numbers of items the
    PROGRESS events report add up to the number of items gathered, and so
    to the total count of a result that is returned. *)
Theorem query_items_progress_adds_up
    (client : call -> outcome Json.value) (access_token cbql : string)
    (page_size : option Z) (fuel : nat) (o : outcome query_result)
    (st : state) :
  query_items client access_token cbql page_size fuel = Some (o, st) ->
  fetched_total (streamed st) = List.length (all_items st) /\
  forall r, o = Return r -> totalCount r = fetched_total (streamed st).
Proof.
  intros H. unfold query_items in H.
  destruct (while_true _ _ _ _ fuel _) as [[o' st'] |] eqn:E; [| discriminate].
  injection H as <- <-.
  destruct (while_true_shape _ _ _ _ _ _ _ _ _
              (after_pages_start client access_token cbql page_size) E)
    as [pages [_ [Ha [Hs Hend]]]].
  assert (Hsum : fetched_total (streamed st') = List.length (all_items st')).
  { rewrite Hs, Ha. simpl. apply fetched_total_progress. }
  split; [exact Hsum |].
  intros r Hr. apply except_RateLimited_return in Hr. subst o'.
  destruct Hend as [[_ [full [last [_ [_ Ho]]]]] | [_ [_ [e He]]]];
    [| discriminate].
  destruct Ho as [[_ Ho] | [size [_ [_ Ho]]]]; [discriminate |].
  injection Ho as ->. cbn [totalCount]. now rewrite Hsum, Ha.
Qed.

Lemma query_items_progress_adds_up_witness :
  fetched_total [START; PROGRESS 1 2; PROGRESS 2 1] =
    List.length [Json.Int 1; Json.Int 2; Json.Int 3] /\
  forall r,
    Return (mkResult 3 [Json.Int 1; Json.Int 2; Json.Int 3]) = Return r ->
    totalCount r = fetched_total [START; PROGRESS 1 2; PROGRESS 2 1].
Proof.
  apply (query_items_progress_adds_up
           (scripted [Return (page_body [Json.Int 1; Json.Int 2]);
                      Return (page_body [Json.Int 3])])
           "token" "tracker = 1" (Some 2%Z) 2
           (Return (mkResult 3 [Json.Int 1; Json.Int 2; Json.Int 3]))
           (mkState 2 [Json.Int 1; Json.Int 2; Json.Int 3]
              [START; PROGRESS 1 2; PROGRESS 2 1]
              [query_call "token" "tracker = 1" 1 (Some 2%Z);
               query_call "token" "tracker = 1" 2 (Some 2%Z)])).
  reflexivity.
Defined.

End RunProperties.

Module RunErrors.

Import Py CodebeamerClient Main Stub Trace LoopFacts RunFacts RunShape.

Lemma except_RateLimited_other (A : Type) (e : exn) :
  (forall r, e <> RateLimitedError r) ->
  except_RateLimited (A := A) (Raise e) = Raise e.
Proof. intros H. destruct e; try reflexivity. now destruct (H e). Qed.

(** A turn of the loop on a page that is no page: the exception of [get]
    or of [extend] ends it, nothing streamed. *)
Lemma loop_body_malformed
    (client : call -> outcome Json.value) (access_token cbql : string)
    (page_size : option Z) (st : state) (result : Json.value) (e : exn) :
  client (query_call access_token cbql (page st) page_size) = Return result ->
  (Json.get result "items" (Json.Array []) = Raise e \/
   exists items,
     Json.get result "items" (Json.Array []) = Return items /\
     Json.iter items = Raise e) ->
  loop_body client access_token cbql page_size st =
  Stop (Raise e)
    (mkState (page st) (all_items st) (streamed st)
       (calls st ++ [query_call access_token cbql (page st) page_size])).
Proof.
  intros Hc [Hg | [items [Hg Hi]]]; unfold loop_body; rewrite Hc, Hg;
    [reflexivity |].
  now rewrite Hi.
Qed.

(** X15.  Only [RateLimited] is translated: any other exception of the
    gateway leaves [query_items] as it is.  (1) In a finished run, a call
    that raised it ended the run with it; (2) raised on the page after the
    full pages [full], it does end the run, the items gathered so far not
    returned. *)
Theorem query_items_passes_other_errors
    (client : call -> outcome Json.value) (access_token cbql : string)
    (page_size : option Z) (e : exn) :
  (forall r, e <> RateLimitedError r) ->
  (forall (fuel : nat) (o : outcome query_result) (st : state) (c : call),
      query_items client access_token cbql page_size fuel = Some (o, st) ->
      In c (calls st) ->
      client c = Raise e ->
      o = Raise e) /\
  (forall (full : list (list Json.value)) (fuel : nat),
      serves client access_token cbql page_size 1 full ->
      Forall (is_full page_size) full ->
      client (query_call access_token cbql (1 + Z.of_nat (List.length full))
                page_size) = Raise e ->
      List.length full < fuel ->
      query_items client access_token cbql page_size fuel =
      Some (Raise e,
            mkState (1 + Z.of_nat (List.length full))
              (List.concat full)
              (START :: progress_events 1 full)
              (page_calls access_token cbql page_size 1
                 (List.length full + 1)))).
Proof.
  intros Hother. split.
  - intros fuel o st c H Hin He. unfold query_items in H.
    destruct (while_true _ _ _ _ fuel _) as [[o' st'] |] eqn:E;
      [| discriminate].
    injection H as <- <-.
    destruct (while_true_raise _ _ _ _ _ _ _ _ E) as [new [Hc Hnew]].
    simpl in Hc. rewrite Hc in Hin. rewrite (Hnew c e Hin He).
    now apply except_RateLimited_other.
  - intros full fuel Hs Hfull He Hfuel.
    rewrite (run_until_raise _ _ _ _ full e fuel Hs Hfull He Hfuel).
    now rewrite except_RateLimited_other.
Qed.

Lemma query_items_passes_other_errors_witness :
  (forall (fuel : nat) (o : outcome query_result) (st : state) (c : call),
      query_items (scripted [Raise (HTTPStatusError 503)])
        "token" "tracker = 1" (Some 500%Z) fuel = Some (o, st) ->
      In c (calls st) ->
      scripted [Raise (HTTPStatusError 503)] c = Raise (HTTPStatusError 503) ->
      o = Raise (HTTPStatusError 503)) /\
  (forall (full : list (list Json.value)) (fuel : nat),
      serves (scripted [Raise (HTTPStatusError 503)])
        "token" "tracker = 1" (Some 500%Z) 1 full ->
      Forall (is_full (Some 500%Z)) full ->
      scripted [Raise (HTTPStatusError 503)]
        (query_call "token" "tracker = 1" (1 + Z.of_nat (List.length full))
           (Some 500%Z)) = Raise (HTTPStatusError 503) ->
      List.length full < fuel ->
      query_items (scripted [Raise (HTTPStatusError 503)])
        "token" "tracker = 1" (Some 500%Z) fuel =
      Some (Raise (HTTPStatusError 503),
            mkState (1 + Z.of_nat (List.length full))
              (List.concat full)
              (START :: progress_events 1 full)
              (page_calls "token" "tracker = 1" (Some 500%Z) 1
                 (List.length full + 1)))).
Proof.
  apply (query_items_passes_other_errors
           (scripted [Raise (HTTPStatusError 503)])
           "token" "tracker = 1" (Some 500%Z) (HTTPStatusError 503)).
  intros r. discriminate.
Defined.

(** X16.  A page without the field [items] counts as an empty page: with a
    positive page size the run ends there in the normal way and returns
    what the full pages before it held, after a PROGRESS event with 0
    items. *)
Theorem query_items_missing_items_ends_run
    (client : call -> outcome Json.value) (access_token cbql : string)
    (size : Z) (full : list (list Json.value))
    (fields : list (string * Json.value)) (fuel : nat) :
  (0 < size)%Z ->
  serves client access_token cbql (Some size) 1 full ->
  Forall (is_full (Some size)) full ->
  client (query_call access_token cbql (1 + Z.of_nat (List.length full))
            (Some size)) = Return (Json.Object fields) ->
  Json.lookup "items" fields = None ->
  List.length full < fuel ->
  query_items client access_token cbql (Some size) fuel =
  Some (Return (mkResult (List.length (List.concat full)) (List.concat full)),
        mkState (1 + Z.of_nat (List.length full))
          (List.concat full)
          (START :: progress_events 1 full ++
             [PROGRESS (1 + Z.of_nat (List.length full)) 0])
          (page_calls access_token cbql (Some size) 1
             (List.length full + 1))).
Proof.
  intros Hpos Hs Hfull Hc Hmiss Hfuel.
  assert (Hlast : serves client access_token cbql (Some size) 1 (full ++ [[]])).
  { apply serves_app. split; [exact Hs |]. split; [| exact I].
    exists (Json.Object fields), (Json.Array []). repeat split.
    - exact Hc.
    - simpl. now rewrite Hmiss. }
  rewrite (run_until_short_page _ _ _ _ size full [] fuel eq_refl Hlast Hfull
             ltac:(simpl; lia) Hfuel).
  rewrite concat_app, progress_events_app. simpl. now rewrite !app_nil_r.
Qed.

Lemma query_items_missing_items_ends_run_witness :
  query_items (fun _ => Return (Json.Object [("total", Json.Int 0)]))
    "token" "tracker = 1" (Some 500%Z) 1 =
  Some (Return (mkResult 0 []),
        mkState 1 [] [START; PROGRESS 1 0]
          [query_call "token" "tracker = 1" 1 (Some 500%Z)]).
Proof.
  apply (query_items_missing_items_ends_run
           (fun _ => Return (Json.Object [("total", Json.Int 0)]))
           "token" "tracker = 1" 500%Z [] [("total", Json.Int 0)] 1).
  - lia.
  - exact I.
  - constructor.
  - reflexivity.
  - reflexivity.
  - simpl. lia.
Defined.

(** X17.  A page that is no page ends the run with an error and without a
    PROGRESS event: [AttributeError] when the decoded body is not an
    object, [TypeError] when its [items] is null, a boolean or a number.
    The items of the full pages before it are not returned. *)
Theorem query_items_malformed_page
    (client : call -> outcome Json.value) (access_token cbql : string)
    (page_size : option Z) (full : list (list Json.value))
    (result : Json.value) (fuel : nat) :
  serves client access_token cbql page_size 1 full ->
  Forall (is_full page_size) full ->
  client (query_call access_token cbql (1 + Z.of_nat (List.length full))
            page_size) = Return result ->
  List.length full < fuel ->
  let stopped :=
    mkState (1 + Z.of_nat (List.length full)) (List.concat full)
      (START :: progress_events 1 full)
      (page_calls access_token cbql page_size 1 (List.length full + 1)) in
  ((forall fields, result <> Json.Object fields) ->
   query_items client access_token cbql page_size fuel =
   Some (Raise AttributeError, stopped)) /\
  (forall fields items,
      result = Json.Object fields ->
      Json.lookup "items" fields = Some items ->
      (items = Json.Null \/ (exists b, items = Json.Bool b) \/
       (exists n, items = Json.Int n) \/ (exists t, items = Json.Float t)) ->
      query_items client access_token cbql page_size fuel =
      Some (Raise TypeError, stopped)).
Proof.
  intros Hs Hfull Hc Hfuel stopped.
  assert (Hrun : forall e,
             (Json.get result "items" (Json.Array []) = Raise e \/
              exists items,
                Json.get result "items" (Json.Array []) = Return items /\
                Json.iter items = Raise e) ->
             query_items client access_token cbql page_size fuel =
             Some (except_RateLimited (Raise e), stopped)).
  { intros e He. unfold query_items.
    replace fuel with (List.length full + S (fuel - S (List.length full)))
      by lia.
    rewrite (while_true_full _ _ _ _ full) by assumption.
    cbn [while_true].
    rewrite (loop_body_malformed _ _ _ _ _ result e); try assumption.
    unfold advance, stopped. cbn [page all_items streamed calls app].
    now rewrite page_calls_app. }
  split.
  - intros Hno. apply (Hrun AttributeError). left.
    destruct result; try reflexivity. now destruct (Hno fields).
  - intros fields items -> Hl Hitems. apply (Hrun TypeError). right.
    exists items. split; [simpl; now rewrite Hl |].
    destruct Hitems as [-> | [[b ->] | [[n ->] | [t ->]]]]; reflexivity.
Qed.

Lemma query_items_malformed_page_witness :
  ((forall fields, Json.Array [] <> Json.Object fields) ->
   query_items (fun _ => Return (Json.Array []))
     "token" "tracker = 1" (Some 500%Z) 1 =
   Some (Raise AttributeError,
         mkState 1 [] [START]
           [query_call "token" "tracker = 1" 1 (Some 500%Z)])) /\
  (forall fields items,
      Json.Array [] = Json.Object fields ->
      Json.lookup "items" fields = Some items ->
      (items = Json.Null \/ (exists b, items = Json.Bool b) \/
       (exists n, items = Json.Int n) \/ (exists t, items = Json.Float t)) ->
      query_items (fun _ => Return (Json.Array []))
        "token" "tracker = 1" (Some 500%Z) 1 =
      Some (Raise TypeError,
            mkState 1 [] [START]
              [query_call "token" "tracker = 1" 1 (Some 500%Z)])).
Proof.
  apply (query_items_malformed_page
           (fun _ => Return (Json.Array []))
           "token" "tracker = 1" (Some 500%Z) [] (Json.Array []) 1).
  - exact I.
  - constructor.
  - reflexivity.
  - simpl. lia.
Defined.

(** X18.  Nothing bounds the loop: against a remote service that answers
    every page with a full page, [query_items] never ends, whatever the
    page size. *)
Theorem query_items_never_ends_on_full_pages
    (client : call -> outcome Json.value) (access_token cbql : string)
    (page_size : option Z) :
  (forall p, (1 <= p)%Z ->
             exists elems,
               returns_page client access_token cbql page_size p elems /\
               is_full page_size elems) ->
  forall fuel : nat,
    query_items client access_token cbql page_size fuel = None.
Proof.
  intros Hp fuel. unfold query_items.
  assert (H : forall (n : nat) (st : state),
             (1 <= page st)%Z ->
             while_true client access_token cbql page_size n st = None).
  { induction n as [|n IH]; intros st Hst; [reflexivity |].
    destruct (Hp (page st) Hst) as [elems [He Hf]].
    cbn [while_true]. rewrite (loop_body_full _ _ _ _ _ _ He Hf).
    apply IH. simpl. lia. }
  rewrite H; [reflexivity | simpl; lia].
Qed.

Lemma query_items_never_ends_on_full_pages_witness :
  query_items (fun _ => Return (page_body [Json.Null]))
    "token" "tracker = 1" (Some 1%Z) 1000 = None.
Proof.
  apply (query_items_never_ends_on_full_pages
           (fun _ => Return (page_body [Json.Null]))
           "token" "tracker = 1" (Some 1%Z)).
  intros p Hp. exists [Json.Null]. split.
  - exists (page_body [Json.Null]), (Json.Array [Json.Null]).
    repeat split; reflexivity.
  - simpl. lia.
Defined.

End RunErrors.

(** ** The tools that reshape what the gateway returns *)

Module ToolFacts.

Import Py CodebeamerClient Main Stub Tools Trace.

Lemma getitem_return (d v : Json.value) (key : string) :
  Json.getitem d key = Return v <->
  exists fields, d = Json.Object fields /\ Json.lookup key fields = Some v.
Proof.
  split.
  - destruct d; simpl; try discriminate.
    destruct (Json.lookup key fields) as [w |] eqn:E; [| discriminate].
    intros H. injection H as ->. now exists fields.
  - intros [fields [-> H]]. simpl. now rewrite H.
Qed.

Lemma project_summaries_iff (ps out : list Json.value) :
  project_summaries ps = Return out <-> Forall2 summarises ps out.
Proof.
  revert out; induction ps as [|p ps IH]; intros out; simpl.
  - split.
    + intros H. injection H as <-. constructor.
    + intros H. now inversion H.
  - split.
    + destruct (Json.getitem p "id") as [id |] eqn:Hid; [| discriminate].
      destruct (Json.getitem p "name") as [name |] eqn:Hname; [| discriminate].
      simpl. destruct (project_summaries ps) as [more |]; [| discriminate].
      simpl. intros H. injection H as <-. constructor.
      * now exists id, name.
      * now apply IH.
    + intros H. inversion H as [| ? summary ? more [id [name [Hid [Hn ->]]]] Hrest];
        subst.
      apply IH in Hrest. now rewrite Hid, Hn, Hrest.
Qed.

(** X19.  [list_projects] is all or nothing: on the projects the gateway
    returned it answers exactly when every one of them is an object with an
    [id] and a [name], and then with the list of their [id] and [name], one
    entry for each project, in the order received and with nothing else. *)
Theorem list_projects_return_iff
    (client : call -> outcome Json.value) (access_token : string)
    (projects v : Json.value) (ps : list Json.value) :
  client (mkCall access_token "GET" "v3/projects" None) = Return projects ->
  Json.iter projects = Return ps ->
  (list_projects client access_token = Return v <->
   exists out,
     Forall2 summarises ps out /\
     v = Json.Object [("projects", Json.Array out)]).
Proof.
  intros Hc Hi. unfold list_projects. rewrite Hc. simpl. rewrite Hi. simpl.
  split.
  - destruct (project_summaries ps) as [out | e] eqn:E;
      [| destruct e; discriminate].
    simpl. intros H. injection H as <-. exists out.
    split; [now apply project_summaries_iff | reflexivity].
  - intros [out [H ->]]. apply project_summaries_iff in H. now rewrite H.
Qed.

Lemma list_projects_return_iff_witness :
  list_projects
    (fun _ => Return (Json.Array
                        [Json.Object [("id", Json.Int 7); ("name", Json.Str "A");
                                      ("key", Json.Str "K")]]))
    "token" =
    Return (Json.Object
              [("projects",
                Json.Array [Json.Object [("id", Json.Int 7);
                                         ("name", Json.Str "A")]])]) <->
  exists out,
    Forall2 summarises
      [Json.Object [("id", Json.Int 7); ("name", Json.Str "A");
                    ("key", Json.Str "K")]] out /\
    Json.Object
      [("projects",
        Json.Array [Json.Object [("id", Json.Int 7); ("name", Json.Str "A")]])] =
    Json.Object [("projects", Json.Array out)].
Proof.
  apply (list_projects_return_iff
           (fun _ => Return (Json.Array
                               [Json.Object [("id", Json.Int 7);
                                             ("name", Json.Str "A");
                                             ("key", Json.Str "K")]]))
           "token"
           (Json.Array [Json.Object [("id", Json.Int 7); ("name", Json.Str "A");
                                     ("key", Json.Str "K")]])).
  - reflexivity.
  - reflexivity.
Defined.

(** X20.  [get_project_details] answers exactly when the gateway returned
    an object with an [id] and a [name]; the answer holds these two and the
    four fields [description], [key], [createdAt] and [status], each [None]
    when the project lacks it, and nothing else of the project. *)
Theorem get_project_details_return_iff
    (client : call -> outcome Json.value) (access_token : string)
    (project_id : Z) (v : Json.value) :
  get_project_details client access_token project_id = Return v <->
  exists fields id name,
    client (mkCall access_token "GET"
              ("/v3/projects/" ++ str_of_int project_id) None) =
      Return (Json.Object fields) /\
    Json.lookup "id" fields = Some id /\
    Json.lookup "name" fields = Some name /\
    v = Json.Object [("id", id); ("name", name);
                     ("description", field_or_null "description" fields);
                     ("key", field_or_null "key" fields);
                     ("createdAt", field_or_null "createdAt" fields);
                     ("status", field_or_null "status" fields)].
Proof.
  unfold get_project_details, field_or_null. split.
  - destruct (client _) as [project | e] eqn:Hc;
      [| destruct e; discriminate].
    destruct project; simpl; try discriminate.
    destruct (Json.lookup "id" fields) as [id |] eqn:Hid; [| discriminate].
    destruct (Json.lookup "name" fields) as [name |] eqn:Hname;
      [| discriminate].
    simpl. intros H. injection H as <-. now exists fields, id, name.
  - intros [fields [id [name [Hc [Hid [Hname ->]]]]]].
    rewrite Hc. simpl. now rewrite Hid, Hname.
Qed.

(** X21.  Without an [id] the answer of the gateway makes
    [get_project_details] raise [KeyError] for [id], whether or not a
    [name] is there; with an [id] and without a [name], [KeyError] for
    [name]; and an answer that is no object makes it raise [TypeError]. *)
Theorem get_project_details_missing_key
    (client : call -> outcome Json.value) (access_token : string)
    (project_id : Z) (project : Json.value) :
  client (mkCall access_token "GET"
            ("/v3/projects/" ++ str_of_int project_id) None) =
    Return project ->
  (forall fields,
      project = Json.Object fields ->
      Json.lookup "id" fields = None ->
      get_project_details client access_token project_id =
      Raise (KeyError "id")) /\
  (forall fields id,
      project = Json.Object fields ->
      Json.lookup "id" fields = Some id ->
      Json.lookup "name" fields = None ->
      get_project_details client access_token project_id =
      Raise (KeyError "name")) /\
  ((forall fields, project <> Json.Object fields) ->
   get_project_details client access_token project_id = Raise TypeError).
Proof.
  intros Hc. unfold get_project_details. rewrite Hc. repeat split.
  - intros fields -> Hid. simpl. now rewrite Hid.
  - intros fields id -> Hid Hname. simpl. now rewrite Hid, Hname.
  - intros Hno. destruct project; try reflexivity. now destruct (Hno fields).
Qed.

Lemma get_project_details_missing_key_witness :
  (forall fields,
      Json.Object [("name", Json.Str "A")] = Json.Object fields ->
      Json.lookup "id" fields = None ->
      get_project_details
        (fun _ => Return (Json.Object [("name", Json.Str "A")])) "token" 7 =
      Raise (KeyError "id")) /\
  (forall fields id,
      Json.Object [("name", Json.Str "A")] = Json.Object fields ->
      Json.lookup "id" fields = Some id ->
      Json.lookup "name" fields = None ->
      get_project_details
        (fun _ => Return (Json.Object [("name", Json.Str "A")])) "token" 7 =
      Raise (KeyError "name")) /\
  ((forall fields, Json.Object [("name", Json.Str "A")] <> Json.Object fields) ->
   get_project_details
     (fun _ => Return (Json.Object [("name", Json.Str "A")])) "token" 7 =
   Raise TypeError).
Proof.
  apply (get_project_details_missing_key
           (fun _ => Return (Json.Object [("name", Json.Str "A")]))
           "token" 7 (Json.Object [("name", Json.Str "A")])).
  reflexivity.
Defined.

Lemma tracker_summaries_iff (ts out : list Json.value) :
  tracker_summaries ts = Return out <-> Forall2 summarises_tracker ts out.
Proof.
  revert out; induction ts as [|t ts IH]; intros out; simpl.
  - split.
    + intros H. injection H as <-. constructor.
    + intros H. now inversion H.
  - split.
    + destruct t; simpl; try discriminate.
      destruct (Json.lookup "id" fields) as [id |] eqn:Hid; [| discriminate].
      destruct (Json.lookup "name" fields) as [name |] eqn:Hname;
        [| discriminate].
      simpl. destruct (tracker_summaries ts) as [more |]; [| discriminate].
      simpl. intros H. injection H as <-. constructor.
      * now exists fields, id, name.
      * now apply IH.
    + intros H.
      inversion H as [| ? summary ? more [fields [id [name [-> [Hid [Hn ->]]]]]]
                        Hrest]; subst.
      apply IH in Hrest. simpl. rewrite Hid, Hn. simpl. now rewrite Hrest.
Qed.

(** X22.  [list_trackers] is all or nothing as well: it answers exactly
    when every tracker the gateway returned is an object with an [id] and a
    [name], then with one entry for each tracker, in the order received,
    holding its [id], its [name] and its [type], [None] when the tracker
    has no [type]. *)
Theorem list_trackers_return_iff
    (client : call -> outcome Json.value) (access_token : string)
    (project_id : Z) (trackers v : Json.value) (ts : list Json.value) :
  client (mkCall access_token "GET"
            ("/v3/projects/" ++ str_of_int project_id ++ "/trackers") None) =
    Return trackers ->
  Json.iter trackers = Return ts ->
  (list_trackers client access_token project_id = Return v <->
   exists out,
     Forall2 summarises_tracker ts out /\
     v = Json.Object [("trackers", Json.Array out)]).
Proof.
  intros Hc Hi. unfold list_trackers. rewrite Hc. simpl. rewrite Hi. simpl.
  split.
  - destruct (tracker_summaries ts) as [out |] eqn:E; [| discriminate].
    simpl. intros H. injection H as <-. exists out.
    split; [now apply tracker_summaries_iff | reflexivity].
  - intros [out [H ->]]. apply tracker_summaries_iff in H. now rewrite H.
Qed.

Lemma list_trackers_return_iff_witness :
  list_trackers
    (fun _ => Return (Json.Array
                        [Json.Object [("id", Json.Int 3);
                                      ("name", Json.Str "Bugs")]]))
    "token" 7 =
    Return (Json.Object
              [("trackers",
                Json.Array [Json.Object [("id", Json.Int 3);
                                         ("name", Json.Str "Bugs");
                                         ("type", Json.Null)]])]) <->
  exists out,
    Forall2 summarises_tracker
      [Json.Object [("id", Json.Int 3); ("name", Json.Str "Bugs")]] out /\
    Json.Object
      [("trackers",
        Json.Array [Json.Object [("id", Json.Int 3); ("name", Json.Str "Bugs");
                                 ("type", Json.Null)]])] =
    Json.Object [("trackers", Json.Array out)].
Proof.
  apply (list_trackers_return_iff
           (fun _ => Return (Json.Array
                               [Json.Object [("id", Json.Int 3);
                                             ("name", Json.Str "Bugs")]]))
           "token" 7
           (Json.Array [Json.Object [("id", Json.Int 3);
                                     ("name", Json.Str "Bugs")]])).
  - reflexivity.
  - reflexivity.
Defined.

(** X23.  [get_tracker_details] answers exactly when the gateway returned
    an object with an [id], a [name], a [type] and a [project] that is
    itself an object with an [id]; the answer holds these, the [id] of the
    project as [projectId], and the [description], [None] when absent. *)
Theorem get_tracker_details_return_iff
    (client : call -> outcome Json.value) (access_token : string)
    (tracker_id : Z) (v : Json.value) :
  get_tracker_details client access_token tracker_id = Return v <->
  exists fields id name type project projectId,
    client (mkCall access_token "GET"
              ("/v3/trackers/" ++ str_of_int tracker_id) None) =
      Return (Json.Object fields) /\
    Json.lookup "id" fields = Some id /\
    Json.lookup "name" fields = Some name /\
    Json.lookup "type" fields = Some type /\
    Json.lookup "project" fields = Some (Json.Object project) /\
    Json.lookup "id" project = Some projectId /\
    v = Json.Object [("id", id); ("name", name); ("type", type);
                     ("description", field_or_null "description" fields);
                     ("projectId", projectId)].
Proof.
  unfold get_tracker_details, field_or_null. split.
  - destruct (client _) as [tracker | e] eqn:Hc; [| discriminate].
    destruct tracker; simpl; try discriminate.
    destruct (Json.lookup "id" fields) as [id |] eqn:Hid; [| discriminate].
    destruct (Json.lookup "name" fields) as [name |] eqn:Hname;
      [| discriminate].
    destruct (Json.lookup "type" fields) as [type |] eqn:Htype;
      [| discriminate].
    simpl.
    destruct (Json.lookup "project" fields) as [project |] eqn:Hproj;
      [| discriminate].
    destruct project as [| | | | | | pfields]; simpl; try discriminate.
    destruct (Json.lookup "id" pfields) as [projectId |] eqn:Hpid;
      [| discriminate].
    intros H. injection H as <-.
    now exists fields, id, name, type, pfields, projectId.
  - intros [fields [id [name [type [project [projectId
              [Hc [Hid [Hname [Htype [Hproj [Hpid ->]]]]]]]]]]]].
    rewrite Hc. simpl. rewrite Hid, Hname, Htype. simpl.
    rewrite Hproj. simpl. now rewrite Hpid.
Qed.

End ToolFacts.

(** ** The scope clause inside a longer word *)

Module ScopeBoundary.

Import Py Re Spec Trace PyFacts ScopeFacts ValidatorFacts CbqlValidator.

(** A scope clause at the start of a word is the text of a scope clause. *)
Lemma has_scope_clause_text (s : string) :
  has_scope_clause s -> scope_text_occurs s.
Proof.
  intros [pre [m [post [E [_ H]]]]]. now exists pre, m, post.
Qed.

(** C7, as stated without the word boundary, fails on [xtracker = 1]: the
    text is not empty and not blank, it contains [tracker =], none of the
    forbidden keywords and no semicolon, and [validate_cbql] does not
    return it but raises the error of the missing scope. *)
Lemma validate_cbql_scope_inside_word_counterexample :
  "xtracker = 1" <> "" /\
  all_space "xtracker = 1" = false /\
  scope_text_occurs "xtracker = 1" /\
  (forall kw, In kw FORBIDDEN_KEYWORDS -> ~ occurs_ci kw "xtracker = 1") /\
  ~ occurs ";" "xtracker = 1" /\
  validate_cbql "xtracker = 1" <> Return (strip "xtracker = 1") /\
  validate_cbql "xtracker = 1" =
    Raise (ValueError "Invalid CBQL: tracker or project scope is required.").
Proof.
  split; [discriminate |]. split; [reflexivity |]. split.
  { exists "x", "tracker =", " 1". split; [reflexivity |].
    exists " ". split; [reflexivity |]. now left. }
  split.
  { intros kw Hin Hocc.
    apply (contains_upper_iff kw _ (keywords_upper kw Hin)) in Hocc.
    simpl in Hin.
    destruct Hin as [<- | [<- | [<- | [<- | [<- | []]]]]];
      vm_compute in Hocc; discriminate. }
  split.
  { intros Hocc. apply contains_iff in Hocc. vm_compute in Hocc.
    discriminate. }
  split; [vm_compute; discriminate | vm_compute; reflexivity].
Qed.

End ScopeBoundary.

(** ** What [int] reads *)

Module IntFacts.

Import Py.

(** A text with more digits than [int] accepts is refused, whatever else
    it holds. *)
Lemma int_of_str_too_long (s : string) :
  int_max_str_digits < count_digits (rstrip_c (lstrip_c s)) ->
  int_of_str s = None.
Proof.
  intros H. unfold int_of_str. cbv zeta.
  now apply Nat.ltb_lt in H as ->.
Qed.

(** Whitespace is dropped around the digits and nowhere else; the
    separator US, which [str.strip] drops, is no whitespace for [int]. *)
Example int_of_str_whitespace :
  int_of_str " 42 " = Some 42%Z /\
  int_of_str (String "009" (String "4" (String "2" (String "010" "")))) =
    Some 42%Z /\
  int_of_str (String "031" "42") = None /\
  int_of_str "- 42" = None /\
  int_of_str "4 2" = None.
Proof. repeat split. Qed.

Example int_of_str_signs_and_underscores :
  int_of_str "+42" = Some 42%Z /\
  int_of_str "-0042" = Some (-42)%Z /\
  int_of_str "4_2" = Some 42%Z /\
  int_of_str "_42" = None /\
  int_of_str "42_" = None /\
  int_of_str "4__2" = None /\
  int_of_str "+" = None /\
  int_of_str "" = None.
Proof. repeat split. Qed.

End IntFacts.
